(** * Borewell contour pipelines: contour levels, grid, bounds and gradient

    A shallow embedding of [generate_contour.py] (groundwater elevation) and
    [generate_nitrate_contour.py] (nitrate concentration).

    Numbers.  A Python/NumPy float is modelled as an exact rational or NaN
    ([float := option Q]); rounding error and the infinities are outside the
    model.  Every division of the two scripts has a non-zero constant or a
    strictly positive quantity as divisor, so no infinity is created by the
    scripts themselves.  The square root of the gradient stage is not
    rational, so that stage (Module [Gradient]) is modelled over the reals. *)

From Stdlib Require Import Reals Lra.
From Stdlib Require Import QArith Qround Qminmax Qreals Lqa ZArith Lia List Bool String Ascii.
From Stdlib Require Import Sorted.
Import ListNotations.

Open Scope Q_scope.

(** ** Floats with NaN *)

Module Float.

Definition float := option Q.
Definition NaN : float := None.
Definition fin (q : Q) : float := Some q.

Definition lift2 (op : Q -> Q -> Q) (x y : float) : float :=
  match x, y with
  | Some a, Some b => Some (op a b)
  | _, _ => None
  end.

Definition add := lift2 Qplus.
Definition sub := lift2 Qminus.
Definition mul := lift2 Qmult.

(** [x / y].  A zero divisor never reaches this function in the two
    scripts; NumPy would give an infinity or NaN there, which the model
    folds into NaN. *)
Definition div (x y : float) : float :=
  match x, y with
  | Some a, Some b => if Qeq_bool b 0 then None else Some (a / b)
  | _, _ => None
  end.

(** [np.floor], [np.ceil]: float results. *)
Definition floor (x : float) : float :=
  option_map (fun q => inject_Z (Qfloor q)) x.
Definition ceil (x : float) : float :=
  option_map (fun q => inject_Z (Qceiling q)) x.

(** [a > b] on rationals. *)
Definition Qgtb (a b : Q) : bool := negb (Qle_bool a b).

(** Python's [x > c]: false as soon as [x] is NaN. *)
Definition gt (x : float) (c : Q) : bool :=
  match x with
  | Some a => Qgtb a c
  | None => false
  end.

(** Equality of floats as numbers; NaN is only related to NaN here (this is
    the identity of the value, not Python's [==]). *)
Definition eqv (x y : float) : Prop :=
  match x, y with
  | Some a, Some b => a == b
  | None, None => True
  | _, _ => False
  end.

End Float.
Import Float.

(** ** Errors *)

Inductive exn : Type :=
| KeyError (column : string)
| ValueError (msg : string)
| LibraryError (msg : string).

Inductive result (A : Type) : Type :=
| Ok (a : A)
| Raise (e : exn).
Arguments Ok {A} a.
Arguments Raise {A} e.

(** ** Contour level selection *)

Module Levels.

(** The two scripts. *)
Inductive variant : Type := Elevation | Nitrate.

(** generate_contour.py, line 84. *)
Definition elev_interval (z_range : float) : Q :=
  if gt z_range 10 then 1.0
  else if gt z_range 5 then 0.5
  else if gt z_range 2 then 0.2
  else if gt z_range 1 then 0.1
  else if gt z_range 0.5 then 0.05
  else 0.01.

(** generate_nitrate_contour.py, line 75. *)
Definition nitrate_interval (n_range : float) : Q :=
  if gt n_range 10 then 1.0
  else if gt n_range 5 then 0.5
  else if gt n_range 2 then 0.2
  else 0.1.

Definition interval_of (v : variant) (range : float) : Q :=
  match v with
  | Elevation => elev_interval range
  | Nitrate => nitrate_interval range
  end.

(** [np.arange(start, stop, step)] on floats: the half-open interval
    [[start, stop)], of length [ceil((stop - start) / step)]; element [i] is
    [start + i * step].  A NaN length is NumPy's
    "arange: cannot compute length". *)
Definition arange (start stop step : float) : result (list Q) :=
  match start, step, div (sub stop start) step with
  | Some a, Some d, Some n =>
      Ok (map (fun i : nat => a + inject_Z (Z.of_nat i) * d)
              (seq 0 (Z.to_nat (Qceiling n))))
  | _, _, _ => Raise (ValueError "arange: cannot compute length")
  end.

(** Lines 86-90 (elevation) and 77-81 (nitrate): the arguments of
    [np.arange]. *)
Definition level_start (v_min : float) (interval : Q) : float :=
  mul (floor (div v_min (fin interval))) (fin interval).

Definition level_stop (v_max : float) (interval : Q) : float :=
  add (mul (ceil (div v_max (fin interval))) (fin interval)) (fin interval).

(** Lines 83-90 / 74-81: range width, interval, levels. *)
Definition contour_levels (v : variant) (v_min v_max : float)
  : result (list Q) :=
  let range := sub v_max v_min in
  let interval := interval_of v range in
  arange (level_start v_min interval) (level_stop v_max interval)
         (fin interval).

(** The lookup tables as the specification prints them: rows
    (threshold, interval), read top to bottom, and the final "else" tier. *)
Definition spec_table (v : variant) : list (Q * Q) * Q :=
  match v with
  | Elevation => ([(10, 1.0); (5, 0.5); (2, 0.2); (1, 0.1); (0.5, 0.05)], 0.01)
  | Nitrate => ([(10, 1.0); (5, 0.5); (2, 0.2)], 0.1)
  end.

Fixpoint table_lookup (rows : list (Q * Q)) (default : Q) (r : Q) : Q :=
  match rows with
  | [] => default
  | (threshold, interval) :: rest =>
      if Qgtb r threshold then interval else table_lookup rest default r
  end.

Definition spec_interval (v : variant) (r : Q) : Q :=
  table_lookup (fst (spec_table v)) (snd (spec_table v)) r.

End Levels.
Import Levels.

(** ** The table read from the Excel file *)

Module Frame.

(** A cell as [pd.read_excel] delivers it: text, a number, or missing. *)
Inductive cell : Type :=
| CStr (s : string)
| CNum (q : Q)
| CNaN.

Definition row := list cell.

Record DataFrame : Type := {
  columns : list string;
  rows : list row
}.

(** [str.strip()]: ASCII white space at both ends. *)
Definition is_space (c : ascii) : bool :=
  let n := nat_of_ascii c in
  ((9 <=? n) && (n <=? 13) || (28 <=? n) && (n <=? 32))%nat.

Fixpoint lstrip (s : string) : string :=
  match s with
  | EmptyString => EmptyString
  | String c s' => if is_space c then lstrip s' else s
  end.

Fixpoint rstrip (s : string) : string :=
  match s with
  | EmptyString => EmptyString
  | String c s' =>
      match rstrip s' with
      | EmptyString => if is_space c then EmptyString else String c EmptyString
      | t => String c t
      end
  end.

Definition strip (s : string) : string := rstrip (lstrip s).

(** Substring test, the meaning of [str.contains] for a pattern without
    regular-expression metacharacters such as ['TOC1']. *)
Fixpoint contains (pat s : string) : bool :=
  String.prefix pat s ||
  match s with
  | EmptyString => false
  | String _ s' => contains pat s'
  end.

(** Position of a column label (labels are taken to be distinct; the first
    match is returned). *)
Fixpoint index_of (name : string) (cols : list string) : option nat :=
  match cols with
  | [] => None
  | c :: cs => if String.eqb c name then Some 0%nat
               else option_map S (index_of name cs)
  end.

(** Reading and writing the cell of a row in column [i]; a row that is too
    short reads as missing values. *)
Definition cell_at (i : nat) (r : row) : cell := nth i r CNaN.

Fixpoint set_at (i : nat) (c : cell) (r : row) : row :=
  match i, r with
  | O, [] => [c]
  | O, _ :: t => c :: t
  | S i', [] => CNaN :: set_at i' c []
  | S i', x :: t => x :: set_at i' c t
  end.

(** [df[mask]] for a row-wise boolean mask. *)
Definition select (mask : row -> bool) (df : DataFrame) : DataFrame :=
  {| columns := columns df; rows := filter mask (rows df) |}.

(** [df[name]]: [KeyError] when the column is absent. *)
Definition series (name : string) (df : DataFrame) : result (list cell) :=
  match index_of name (columns df) with
  | Some i => Ok (map (cell_at i) (rows df))
  | None => Raise (KeyError name)
  end.

Definition notna (c : cell) : bool :=
  match c with CNaN => false | _ => true end.

(** [cell != '-']. *)
Definition ne_dash (c : cell) : bool :=
  match c with
  | CStr s => negb (String.eqb s "-")
  | _ => true
  end.

(** [Series.str.contains(pat, na=False)]: cells that are not text give the
    [na] value. *)
Definition str_contains (pat : string) (c : cell) : bool :=
  match c with
  | CStr s => contains pat s
  | _ => false
  end.

Definition numbers (s : list cell) : list Q :=
  flat_map (fun c => match c with CNum q => [q] | _ => [] end) s.

Definition to_float (c : cell) : float :=
  match c with CNum q => fin q | _ => NaN end.

(** Minimum and maximum of a list of rationals; NaN when it is empty. *)
Definition list_min (l : list Q) : float :=
  match l with
  | [] => NaN
  | x :: xs => fin (fold_left Qmin xs x)
  end.

Definition list_max (l : list Q) : float :=
  match l with
  | [] => NaN
  | x :: xs => fin (fold_left Qmax xs x)
  end.

(** [Series.min()], [Series.max()]: missing values are skipped, an empty
    series gives NaN. *)
Definition series_min (s : list cell) : float := list_min (numbers s).
Definition series_max (s : list cell) : float := list_max (numbers s).

End Frame.
Import Frame.

(** ** Arrays and the interpolation grid *)

Module Grid.

Definition array := list (list float).

(** The [100j] of [np.mgrid[a:b:100j, c:d:100j]]. *)
Definition resolution : nat := 100.

(** NumPy's [nd_grid] for a complex step [nj]:
    [step = (stop - start) / float(n - 1)] and point [i] is
    [i * step + start]. *)
Definition axis_step (start stop : float) : float :=
  div (sub stop start) (fin (inject_Z (Z.of_nat (resolution - 1)))).

Definition axis_point (start stop : float) (i : nat) : float :=
  add (mul (fin (inject_Z (Z.of_nat i))) (axis_step start stop)) start.

(** [grid_x[i][j]] is the [i]-th easting, [grid_y[i][j]] the [j]-th
    northing. *)
Definition mgrid (x0 x1 y0 y1 : float) : array * array :=
  (map (fun i => map (fun _ => axis_point x0 x1 i) (seq 0 resolution))
       (seq 0 resolution),
   map (fun _ => map (fun j => axis_point y0 y1 j) (seq 0 resolution))
       (seq 0 resolution)).

Definition fmin (x y : float) : float := lift2 Qmin x y.
Definition fmax (x y : float) : float := lift2 Qmax x y.

(** [ndarray.min()], [ndarray.max()]: NaN as soon as one element is NaN.
    (NumPy raises on an empty array; the arrays here have 100 x 100
    elements.) *)
Definition amin (a : array) : float :=
  match List.concat a with
  | [] => NaN
  | x :: xs => fold_left fmin xs x
  end.

Definition amax (a : array) : float :=
  match List.concat a with
  | [] => NaN
  | x :: xs => fold_left fmax xs x
  end.

(** The finite elements of an array. *)
Definition finite_values (a : array) : list Q :=
  flat_map (fun x : float => match x with Some q => [q] | None => [] end)
           (List.concat a).

(** [np.nanmin], [np.nanmax]: NaN elements are ignored; an all-NaN array
    gives NaN (with a warning). *)
Definition nanmin (a : array) : float := list_min (finite_values a).
Definition nanmax (a : array) : float := list_max (finite_values a).

Definition lookup (a : array) (i j : nat) : float :=
  nth j (nth i a []) NaN.

End Grid.
Import Grid.

(** ** The two scripts *)

Module Pipeline.

(** What the scripts call and do not define. *)
Record Env : Type := {
  (** [str(x)] of a numeric cell, as [astype(str)] renders it. *)
  str_of_number : Q -> string;
  (** [pd.to_numeric] on a text cell; [None] when the text is no number. *)
  parse_number : string -> option Q;
  (** [Transformer.from_crs(src, dst, always_xy).transform(x, y)]. *)
  pyproj_transform : string -> string -> bool -> float -> float -> float * float;
  (** [griddata(points, values, xi, method)]; may raise. *)
  griddata : list (float * float) -> list float -> array * array -> string
             -> result array
}.

(** The observable actions of a run, in order. *)
Inductive event : Type :=
| Transform (src dst : string) (always_xy : bool) (x y : float)
| JsonDump (path : string) (obj : list (string * float))
| Contourf (levels : list Q)
| Savefig (path : string).

(** A run: the actions performed, and a value or the exception that ended
    it. *)
Definition M (A : Type) : Type := (list event * result A)%type.

Definition ret {A} (a : A) : M A := ([], Ok a).

Definition bind {A B} (m : M A) (k : A -> M B) : M B :=
  match m with
  | (t, Ok a) => let (t', r) := k a in (t ++ t', r)
  | (t, Raise e) => (t, Raise e)
  end.

Definition emit (e : event) : M unit := ([e], Ok tt).
Definition lift {A} (r : result A) : M A := ([], r).

Definition trace {A} (m : M A) : list event := fst m.
Definition outcome {A} (m : M A) : result A := snd m.

Definition rbind {A B} (r : result A) (k : A -> result B) : result B :=
  match r with
  | Ok a => k a
  | Raise e => Raise e
  end.

Declare Scope run_scope.
Delimit Scope run_scope with run.
Notation "x <- m ;; k" := (bind m (fun x => k))
  (at level 61, m at next level, right associativity) : run_scope.
Notation "m ;; k" := (bind m (fun _ => k))
  (at level 61, right associativity) : run_scope.
Notation "x <~ r ;; k" := (rbind r (fun x => k))
  (at level 61, r at next level, right associativity) : run_scope.

Definition ELEVATION : string := "Groundwater Elevation mAHD".
Definition NITRATE : string := "Nitrate".
Definition SRC_CRS : string := "EPSG:32755".
Definition DST_CRS : string := "EPSG:4326".

Section WithEnv.

Variable env : Env.

(** [df.columns = df.columns.str.strip()]. *)
Definition strip_columns (df : DataFrame) : DataFrame :=
  {| columns := map strip (columns df); rows := rows df |}.

(** [Series.astype(str)] on one cell. *)
Definition astype_str (c : cell) : string :=
  match c with
  | CStr s => s
  | CNum q => str_of_number env q
  | CNaN => "nan"
  end.

(** generate_contour.py, lines 35-36. *)
Definition filter_toc1 (df : DataFrame) : DataFrame :=
  match index_of "Name" (columns df) with
  | Some i =>
      if existsb (fun r => contains "TOC1" (astype_str (cell_at i r)))
                 (rows df)
      then select (fun r => str_contains "TOC1" (cell_at i r)) df
      else df
  | None => df
  end.

(** generate_contour.py, lines 38-40. *)
Definition drop_unmeasured (df : DataFrame) : DataFrame :=
  match index_of ELEVATION (columns df) with
  | Some i =>
      select (fun r => ne_dash (cell_at i r))
             (select (fun r => notna (cell_at i r)) df)
  | None => df
  end.

(** [pd.to_numeric(..., errors='coerce')] on one cell. *)
Definition to_numeric (c : cell) : cell :=
  match c with
  | CStr s => match parse_number env s with
              | Some q => CNum q
              | None => CNaN
              end
  | other => other
  end.

(** [df[name] = pd.to_numeric(df[name], errors='coerce')]. *)
Definition to_numeric_column (name : string) (df : DataFrame)
  : result DataFrame :=
  match index_of name (columns df) with
  | Some i =>
      Ok {| columns := columns df;
            rows := map (fun r => set_at i (to_numeric (cell_at i r)) r)
                        (rows df) |}
  | None => Raise (KeyError name)
  end.

(** [df.dropna(subset=[a, b, c])]. *)
Definition dropna (a b c : string) (df : DataFrame) : result DataFrame :=
  match index_of a (columns df), index_of b (columns df),
        index_of c (columns df) with
  | Some i, Some j, Some k =>
      Ok (select (fun r => notna (cell_at i r) && notna (cell_at j r)
                           && notna (cell_at k r)) df)
  | None, _, _ => Raise (KeyError a)
  | _, None, _ => Raise (KeyError b)
  | _, _, None => Raise (KeyError c)
  end.

Open Scope run_scope.

(** generate_contour.py, lines 33-45. *)
Definition load_elevation (df0 : DataFrame) : result DataFrame :=
  let df := strip_columns df0 in
  let df := filter_toc1 df in
  let df := drop_unmeasured df in
  df <~ to_numeric_column "Easting" df ;;
  df <~ to_numeric_column "Northing" df ;;
  df <~ to_numeric_column ELEVATION df ;;
  dropna "Easting" "Northing" ELEVATION df.

(** generate_nitrate_contour.py, lines 32-40. *)
Definition load_nitrate (df0 : DataFrame) : result DataFrame :=
  let df := strip_columns df0 in
  df <~ to_numeric_column "Easting" df ;;
  df <~ to_numeric_column "Northing" df ;;
  df <~ to_numeric_column NITRATE df ;;
  dropna "Easting" "Northing" NITRATE df.

(** Lines 48-51 / 43-46. *)
Definition build_grid (df : DataFrame) : result (array * array) :=
  easting <~ series "Easting" df ;;
  northing <~ series "Northing" df ;;
  Ok (mgrid (series_min easting) (series_max easting)
            (series_min northing) (series_max northing)).

(** Lines 54-67 / 49-62: the two corners, the dictionary, the file. *)
Definition write_bounds (path : string) (grid : array * array) : M unit :=
  let (grid_x, grid_y) := grid in
  let transform := pyproj_transform env SRC_CRS DST_CRS true in
  let min_easting := amin grid_x in
  let max_easting := amax grid_x in
  let min_northing := amin grid_y in
  let max_northing := amax grid_y in
  emit (Transform SRC_CRS DST_CRS true min_easting min_northing) ;;
  let (min_lon, min_lat) := transform min_easting min_northing in
  emit (Transform SRC_CRS DST_CRS true max_easting max_northing) ;;
  let (max_lon, max_lat) := transform max_easting max_northing in
  let bounds_dict :=
    [("min_lat", min_lat); ("min_lon", min_lon);
     ("max_lat", max_lat); ("max_lon", max_lon)]%string in
  emit (JsonDump path bounds_dict).

(** Lines 70-75 / 65-70. *)
Definition interpolate (value : string) (df : DataFrame)
  (grid : array * array) : result array :=
  easting <~ series "Easting" df ;;
  northing <~ series "Northing" df ;;
  values <~ series value df ;;
  griddata env (combine (map to_float easting) (map to_float northing))
           (map to_float values) grid "cubic".

(** Line 82 of generate_contour.py. *)
Definition elevation_range (df : DataFrame) : result (float * float) :=
  values <~ series ELEVATION df ;;
  Ok (series_min values, series_max values).

(** Line 73 of generate_nitrate_contour.py. *)
Definition nitrate_range (grid_nitrate : array) : float * float :=
  (nanmin grid_nitrate, nanmax grid_nitrate).

(** generate_contour.py, lines 47-109, on the loaded table.  The gradient
    of lines 77-80 feeds only the arrows of the picture; it is modelled
    in Module [Gradient]. *)
Definition contour_elevation (df : DataFrame) : M unit :=
  grid <- lift (build_grid df) ;;
  write_bounds "output_files/image_bounds.json" grid ;;
  grid_z <- lift (interpolate ELEVATION df grid) ;;
  range <- lift (elevation_range df) ;;
  contour_levels <- lift (contour_levels Elevation (fst range) (snd range)) ;;
  emit (Contourf contour_levels) ;;
  emit (Savefig "output_files/groundwater_contour_true_scale.png").

(** generate_nitrate_contour.py, lines 42-115, on the loaded table. *)
Definition contour_nitrate (df : DataFrame) : M unit :=
  grid <- lift (build_grid df) ;;
  write_bounds "output_files/nitrate_bounds.json" grid ;;
  grid_nitrate <- lift (interpolate NITRATE df grid) ;;
  let range := nitrate_range grid_nitrate in
  nitrate_levels <- lift (contour_levels Nitrate (fst range) (snd range)) ;;
  emit (Contourf nitrate_levels) ;;
  emit (Savefig "output_files/groundwater_contour_true_scale.png").

(** [main()] of generate_contour.py, from the table read at line 32. *)
Definition main_elevation (df0 : DataFrame) : M unit :=
  df <- lift (load_elevation df0) ;;
  contour_elevation df.

(** [main()] of generate_nitrate_contour.py, from the table read at
    line 31. *)
Definition main_nitrate (df0 : DataFrame) : M unit :=
  df <- lift (load_nitrate df0) ;;
  contour_nitrate df.

End WithEnv.

End Pipeline.
Import Pipeline.

(** ** The gradient field (generate_contour.py, lines 77-80) *)

Module Gradient.

Local Open Scope R_scope.

(** A two-dimensional array of floats: its shape and its elements; [None]
    is NaN. *)
Record ndarray : Type := {
  nrows : nat;
  ncols : nat;
  item : nat -> nat -> option R
}.


Definition olift2 (op : R -> R -> R) (x y : option R) : option R :=
  match x, y with
  | Some a, Some b => Some (op a b)
  | _, _ => None
  end.

(** [np.gradient] along one axis of length [n], unit spacing, first-order
    edges: one-sided differences at both ends, central differences
    inside. *)
Definition diff1 (n : nat) (f : nat -> option R) (i : nat) : option R :=
  if (i =? 0)%nat then olift2 Rminus (f 1%nat) (f 0%nat)
  else if (i =? n - 1)%nat then olift2 Rminus (f (n - 1)%nat) (f (n - 2)%nat)
  else option_map (fun d => d / 2) (olift2 Rminus (f (i + 1)%nat) (f (i - 1)%nat)).

(** Line 77: [dz_dx, dz_dy = np.gradient(grid_z)] (axis 0, axis 1). *)
Definition dz_dx (z : ndarray) (i j : nat) : option R :=
  diff1 (nrows z) (fun k => item z k j) i.

Definition dz_dy (z : ndarray) (i j : nat) : option R :=
  diff1 (ncols z) (fun k => item z i k) j.

(** Line 78. *)
Definition magnitude (z : ndarray) (i j : nat) : option R :=
  option_map sqrt
    (olift2 Rplus (option_map (fun a => a ^ 2) (dz_dx z i j))
                  (option_map (fun b => b ^ 2) (dz_dy z i j))).

Definition epsilon : R := / 10 ^ 10.

(** Lines 79-80. *)
Definition u (z : ndarray) (i j : nat) : option R :=
  olift2 Rdiv (option_map Ropp (dz_dx z i j))
              (olift2 Rplus (magnitude z i j) (Some epsilon)).

Definition v (z : ndarray) (i j : nat) : option R :=
  olift2 Rdiv (option_map Ropp (dz_dy z i j))
              (olift2 Rplus (magnitude z i j) (Some epsilon)).

(** Length of the arrow drawn at a cell. *)
Definition arrow_length (z : ndarray) (i j : nat) : option R :=
  option_map sqrt
    (olift2 Rplus (option_map (fun a => a ^ 2) (u z i j))
                  (option_map (fun b => b ^ 2) (v z i j))).

(** The indices [np.gradient] reads for position [i] of an axis of
    length [n]. *)
Definition stencil (n i : nat) : list nat :=
  if (i =? 0)%nat then [1; 0]%nat
  else if (i =? n - 1)%nat then [n - 1; n - 2]%nat
  else [i + 1; i - 1]%nat.

Definition defined (x : option R) : Prop := x <> None.


End Gradient.

(** ** Notions used in the statements *)

(** The list [a, a + d, ..., a + (n - 1) d]. *)
Definition progression (a d : Q) (n : nat) : list Q :=
  map (fun i : nat => a + inject_Z (Z.of_nat i) * d) (seq 0 n).

(** The number of contour levels. *)
Definition level_count (w : variant) (v_min v_max : Q) : nat :=
  let interval := interval_of w (fin (v_max - v_min)) in
  Z.to_nat (Qceiling (v_max / interval) - Qfloor (v_min / interval) + 1).

(** [m] is the least (greatest) element of [l], as a number. *)
Definition minimum_of (m : Q) (l : list Q) : Prop :=
  Exists (Qeq m) l /\ Forall (Qle m) l.

Definition maximum_of (m : Q) (l : list Q) : Prop :=
  Exists (Qeq m) l /\ Forall (fun x => x <= m) l.


Definition flt (x y : float) : Prop :=
  match x, y with
  | Some a, Some b => a < b
  | _, _ => False
  end.

(** The points of one axis of the grid over [[a, b]]. *)
Definition axis_value (a b : Q) (i : nat) : Q :=
  inject_Z (Z.of_nat i) * ((b - a) / inject_Z (Z.of_nat (resolution - 1))) + a.

(** An [n] x [n] array given by its elements. *)
Definition tabulate (n : nat) (f : nat -> nat -> Q) : array :=
  map (fun i => map (fun j => fin (f i j)) (seq 0 n)) (seq 0 n).

Definition tabulate_values (n : nat) (f : nat -> nat -> Q) : list Q :=
  List.concat (map (fun i => map (fun j => f i j) (seq 0 n)) (seq 0 n)).

(** The grid [(grid_x, grid_y)] covers [[a, b] x [c, d]] with
    [resolution] x [resolution] points, its first point is [(a, c)], its
    last point [(b, d)], and these are the extremes of its coordinates. *)
Record spans (grid : array * array) (a b c d : Q) : Prop := {
  spans_rows : List.length (fst grid) = resolution /\
               List.length (snd grid) = resolution;
  spans_cols : Forall (fun r => List.length r = resolution) (fst grid) /\
               Forall (fun r => List.length r = resolution) (snd grid);
  spans_points : forall i j, (i < resolution)%nat -> (j < resolution)%nat ->
      exists x y, lookup (fst grid) i j = fin x /\ lookup (snd grid) i j = fin y /\
                  a <= x <= b /\ c <= y <= d;
  spans_first : eqv (lookup (fst grid) 0 0) (fin a) /\
                eqv (lookup (snd grid) 0 0) (fin c);
  spans_last : eqv (lookup (fst grid) (resolution - 1) (resolution - 1)) (fin b) /\
               eqv (lookup (snd grid) (resolution - 1) (resolution - 1)) (fin d);
  spans_min : eqv (amin (fst grid)) (fin a) /\ eqv (amin (snd grid)) (fin c);
  spans_max : eqv (amax (fst grid)) (fin b) /\ eqv (amax (snd grid)) (fin d)
}.

Definition is_num (c : cell) : bool :=
  match c with CNum _ => true | _ => false end.

Definition not_str (c : cell) : bool :=
  match c with CStr _ => false | _ => true end.

(** A validated sample table: the three columns exist and every row has a
    number in each of them. *)
Definition validated (value : string) (df : DataFrame) : Prop :=
  exists i j k,
    index_of "Easting" (columns df) = Some i /\
    index_of "Northing" (columns df) = Some j /\
    index_of value (columns df) = Some k /\
    Forall (fun r => is_num (cell_at i r) = true /\
                     is_num (cell_at j r) = true /\
                     is_num (cell_at k r) = true) (rows df).

(** The three coercions followed by [dropna] (lines 42-45 / 35-40), the
    common tail of the two loaders. *)
Definition coerce_and_drop (env : Env) (value : string) (df : DataFrame)
  : result DataFrame :=
  rbind (to_numeric_column env "Easting" df) (fun df =>
  rbind (to_numeric_column env "Northing" df) (fun df =>
  rbind (to_numeric_column env value df) (fun df =>
  dropna "Easting" "Northing" value df))).





(** What lines 54-67 / 49-62 do for a given grid. *)
Definition bounds_events (env : Env) (path : string) (grid : array * array)
  : list event :=
  let min_easting := amin (fst grid) in
  let max_easting := amax (fst grid) in
  let min_northing := amin (snd grid) in
  let max_northing := amax (snd grid) in
  let lo := pyproj_transform env SRC_CRS DST_CRS true min_easting min_northing in
  let hi := pyproj_transform env SRC_CRS DST_CRS true max_easting max_northing in
  [Transform SRC_CRS DST_CRS true min_easting min_northing;
   Transform SRC_CRS DST_CRS true max_easting max_northing;
   JsonDump path [("min_lat", snd lo); ("min_lon", fst lo);
                  ("max_lat", snd hi); ("max_lon", fst hi)]%string].

(** The rendering that ends a run. *)
Definition render_events (levels : list Q) : list event :=
  [Contourf levels;
   Savefig "output_files/groundwater_contour_true_scale.png"].




(** ** Example data *)

(** The five samples of the specification's scenario, with a nitrate
    column added. *)
Definition five_samples : DataFrame :=
  {| columns := ["Easting"; "Northing"; "Groundwater Elevation mAHD"; "Nitrate"]%string;
     rows := [[CNum 0; CNum 0; CNum 10; CNum 1];
              [CNum 10; CNum 0; CNum 12; CNum 2];
              [CNum 0; CNum 10; CNum 8; CNum 3];
              [CNum 10; CNum 10; CNum 14; CNum 4];
              [CNum 5; CNum 5; CNum 11; CNum 2.5]] |}.

(** Three samples at the corners of a triangle. *)
Definition three_samples : DataFrame :=
  {| columns := ["Easting"; "Northing"; "Groundwater Elevation mAHD"; "Nitrate"]%string;
     rows := [[CNum 0; CNum 0; CNum 1; CNum 1];
              [CNum 99; CNum 0; CNum 2; CNum 2];
              [CNum 0; CNum 99; CNum 3; CNum 3]] |}.

(** A table with tagged and untagged rows, and padded headers. *)
Definition tagged_samples : DataFrame :=
  {| columns := [" Name"; "Easting"; "Northing";
                 "Groundwater Elevation mAHD "]%string;
     rows := [[CStr "TOC1-MW01"; CNum 0; CNum 0; CNum 10];
              [CStr "BH7"; CNum 10; CNum 0; CNum 12];
              [CNaN; CNum 0; CNum 10; CStr "-"];
              [CNum 7; CNum 10; CNum 10; CNum 14];
              [CStr "MW-TOC1"; CNum 5; CNum 5; CNum 11]] |}.

(** A stand-in interpolator: the plane [1 + x/99 + 2y/99] on the triangle
    [x + y <= 99], NaN outside it. *)
Definition plane_on_triangle (x y : float) : float :=
  match x, y with
  | Some a, Some b =>
      if Qle_bool (a + b) 99 then Some (1 + a / 99 + 2 * b / 99) else None
  | _, _ => None
  end.

Fixpoint zip_with {A B C} (f : A -> B -> C) (l : list A) (l' : list B) : list C :=
  match l, l' with
  | a :: t, b :: t' => f a b :: zip_with f t t'
  | _, _ => []
  end.

Definition triangle_griddata (points : list (float * float))
  (values : list float) (xi : array * array) (method : string) : result array :=
  Ok (zip_with (zip_with plane_on_triangle) (fst xi) (snd xi)).

(** A stand-in interpolator that returns an all-NaN grid. *)
Definition blank_griddata (points : list (float * float))
  (values : list float) (xi : array * array) (method : string) : result array :=
  Ok (map (map (fun _ => NaN)) (fst xi)).

(** A stand-in transformation: the easting passes through, the northing is
    sheared by [k] times the easting (as under grid convergence). *)
Definition sheared (k : Q) (src dst : string) (always_xy : bool)
  (x y : float) : float * float :=
  (x, sub y (mul (fin k) x)).

Definition example_env (k : Q) : Env :=
  {| str_of_number := fun _ => "0"%string;
     parse_number := fun _ => None;
     pyproj_transform := sheared k;
     griddata := triangle_griddata |}.

Definition blank_env : Env :=
  {| str_of_number := fun _ => "0"%string;
     parse_number := fun _ => None;
     pyproj_transform := sheared 0;
     griddata := blank_griddata |}.




(** The same surface given cell by cell, as an array of reals. *)
Definition triangle_field : Gradient.ndarray :=
  {| Gradient.nrows := 100;
     Gradient.ncols := 100;
     Gradient.item := fun i j =>
       if (i + j <=? 99)%nat
       then Some (1 + INR i / 99 + 2 * INR j / 99)%R
       else None |}.

(** A 3 x 3 array with a single NaN in the middle. *)
Definition pierced_field : Gradient.ndarray :=
  {| Gradient.nrows := 3;
     Gradient.ncols := 3;
     Gradient.item := fun i j =>
       if ((i =? 1) && (j =? 1))%nat then None else Some (INR i + INR j)%R |}.

(** ** What is drawn besides the contours *)


(** [l[::step]] for a positive [step]: [wait] elements are skipped before the
    next one is taken. *)
Fixpoint every_from {A : Type} (step wait : nat) (l : list A) : list A :=
  match l with
  | [] => []
  | x :: t =>
      match wait with
      | O => x :: every_from step (step - 1) t
      | S k => every_from step k t
      end
  end.

Definition stride {A : Type} (step : nat) (l : list A) : list A :=
  every_from step 0 l.

(** [a[::step, ::step]]. *)
Definition stride2 {A : Type} (step : nat) (a : list (list A))
  : list (list A) :=
  map (stride step) (stride step a).

(** generate_contour.py, line 96. *)
Definition quiver_step : nat := 10.

(** generate_contour.py, line 97: where the arrows are drawn. *)
Definition quiver_positions (grid : array * array) : array * array :=
  (stride2 quiver_step (fst grid), stride2 quiver_step (snd grid)).

(** ** The report launcher (main.py) *)

Module Launcher.

Definition GENERATE_IMAGE_SCRIPT : string := "generate_image.py".
Definition GENERATE_NITRATE_IMAGE_SCRIPT : string := "generate_image_nitrate.py".
Definition GENERATE_MAPS_SCRIPT : string := "generate_maps.py".
Definition INTERACTIVE_MAP_HTML : string := "interactive_map.html".
Definition TEXT_COLOR : string := "#e0e0e0".
Definition ACCENT_COLOR : string := "#007acc".
Definition WINDOW_WIDTH : Z := 450.
Definition WINDOW_HEIGHT : Z := 300.

Definition nl : string := String (ascii_of_nat 10) EmptyString.

(** How [subprocess.run(["python", script], check=True, ...)] ends. *)
Inductive process : Type :=
| Exited0
| ExitedNonZero (stderr : string)
| PythonNotFound
| Failed (exception : string).

(** What the launcher cannot decide itself. *)
Record World : Type := {
  run_script : string -> process;
  html_exists : bool;
  html_realpath : string
}.

Inductive pyexn : Type :=
| FileNotFoundError
| CalledProcessError (cmd stderr : string)
| OtherError (exception : string).

(** The status bar. *)
Record Label : Type := {
  text : string;
  fg : string
}.

Inductive action : Type :=
| UpdateIdletasks
| SubprocessRun (script : string)
| OpenNewTab (url : string)
| ShowInfo (title message : string)
| ShowError (title message : string).

(** A computation on the status bar that logs its actions and may raise. *)
Definition UI (A : Type) : Type :=
  Label * list action -> (Label * list action) * (pyexn + A).

Definition ui_ret {A} (a : A) : UI A := fun s => (s, inr a).

Definition ui_bind {A B} (m : UI A) (k : A -> UI B) : UI B :=
  fun s =>
    match m s with
    | (s', inr a) => k a s'
    | (s', inl e) => (s', inl e)
    end.

Definition ui_then {A B} (m : UI A) (k : UI B) : UI B :=
  ui_bind m (fun _ => k).

Definition act (a : action) : UI unit :=
  fun s => ((fst s, snd s ++ [a]), inr tt).

(** [status_label.config(text=t, fg=c)] and [status_label.config(text=t)]. *)
Definition config_text_fg (t c : string) : UI unit :=
  fun s => (({| text := t; fg := c |}, snd s), inr tt).

Definition config_text (t : string) : UI unit :=
  fun s => (({| text := t; fg := fg (fst s) |}, snd s), inr tt).

(** [repr] of the command list of [subprocess.run]. *)
Definition cmd_repr (script : string) : string :=
  ("['python', '" ++ script ++ "']")%string.

Definition subprocess_run (w : World) (script : string) : UI unit :=
  fun s =>
    let s' := (fst s, snd s ++ [SubprocessRun script]) in
    match run_script w script with
    | Exited0 => (s', inr tt)
    | ExitedNonZero stderr => (s', inl (CalledProcessError (cmd_repr script) stderr))
    | PythonNotFound => (s', inl FileNotFoundError)
    | Failed e => (s', inl (OtherError e))
    end.

(** [try: body except ...: handler]. *)
Definition try_except {A} (body : UI A) (handler : pyexn -> option (UI A))
  : UI A :=
  fun s =>
    match body s with
    | (s', inr a) => (s', inr a)
    | (s', inl e) =>
        match handler e with
        | Some h => h s'
        | None => (s', inl e)
        end
    end.

(** [try: body finally: final]. *)
Definition try_finally {A} (body : UI A) (final : UI unit) : UI A :=
  fun s =>
    match body s with
    | (s', r) =>
        match final s' with
        | (s'', inr _) => (s'', r)
        | (s'', inl e) => (s'', inl e)
        end
    end.

Definition success_message : string :=
  ("Groundwater report generated successfully!" ++ nl ++ nl ++
   "The interactive map '" ++ INTERACTIVE_MAP_HTML ++
   "' is opening in your browser.")%string.

Definition missing_message : string :=
  ("Error: Could not find the output file '" ++ INTERACTIVE_MAP_HTML ++ "'.")%string.

Definition failure_message (cmd stderr : string) : string :=
  ("An error occurred while running a script:" ++ nl ++ nl ++
   "Script: " ++ cmd ++ nl ++ nl ++ "Error:" ++ nl ++ stderr)%string.

(** main.py, lines 51-56 and 86-91: the two [except] clauses. *)
Definition handlers (e : pyexn) : option (UI unit) :=
  match e with
  | FileNotFoundError =>
      Some (act (ShowError "Error"
        "Python command not found. Please ensure Python is in your system's PATH."))
  | CalledProcessError cmd stderr =>
      Some (act (ShowError "Execution Error" (failure_message cmd stderr)))
  | OtherError _ => None
  end.

(** main.py, lines 26-58. *)
Definition run_groundwater_report (w : World) : UI unit :=
  try_finally
    (try_except
       (ui_then (config_text_fg "Step 1/3: Generating contour image..." ACCENT_COLOR)
       (ui_then (act UpdateIdletasks)
       (ui_then (subprocess_run w GENERATE_IMAGE_SCRIPT)
       (ui_then (config_text "Step 2/3: Generating interactive maps...")
       (ui_then (act UpdateIdletasks)
       (ui_then (subprocess_run w GENERATE_MAPS_SCRIPT)
       (ui_then (config_text "Step 3/3: Opening report...")
       (ui_then (act UpdateIdletasks)
         (if html_exists w
          then ui_then (act (OpenNewTab ("file://" ++ html_realpath w)%string))
                       (act (ShowInfo "Report Ready" success_message))
          else act (ShowError "File Not Found" missing_message))))))))))
       handlers)
    (config_text_fg "Ready" TEXT_COLOR).

(** main.py, lines 61-94. *)
Definition run_nitrate_report (w : World) : UI unit :=
  try_finally
    (try_except
       (ui_then (config_text_fg "Step 1/3: Generating contour image..." ACCENT_COLOR)
       (ui_then (act UpdateIdletasks)
       (ui_then (subprocess_run w GENERATE_NITRATE_IMAGE_SCRIPT)
       (ui_then (config_text "Step 2/3: Generating interactive maps...")
       (ui_then (act UpdateIdletasks)
       (ui_then (subprocess_run w GENERATE_MAPS_SCRIPT)
       (ui_then (config_text "Step 3/3: Opening report...")
       (ui_then (act UpdateIdletasks)
         (if html_exists w
          then ui_then (act (OpenNewTab ("file://" ++ html_realpath w)%string))
                       (act (ShowInfo "Report Ready" success_message))
          else act (ShowError "File Not Found" missing_message))))))))))
       handlers)
    (config_text_fg "Ready" TEXT_COLOR).

(** main.py, lines 107-111: where the window is put, for a screen of the
    given size ([//] is floor division). *)
Definition window_position (screen_width screen_height : Z) : Z * Z :=
  ((screen_width / 2) - (WINDOW_WIDTH / 2),
   (screen_height / 2) - (WINDOW_HEIGHT / 2))%Z.

End Launcher.

(** ** Points and overlay bounds from the KMZ file (generate_maps.py) *)

Module Maps.

Inductive error : Type :=
| FileNotFoundError (msg : string)
| ValueError (msg : string).

(** What the function reads through its libraries, for an archive that is
    extracted and parsed without a library error. *)
Record Env : Type := {
  (** [os.listdir(extract_dir)] after the archive has been extracted. *)
  listdir : list string;
  (** [os.path.join]. *)
  path_join : string -> string -> string;
  (** The coordinate texts of the [Placemark]s with a [Point], in document
      order, of the KML file at a path. *)
  placemarks_of : string -> list string;
  (** [float(text)] for the text of a finite number; [None] when Python
      raises [ValueError]. *)
  parse_float : string -> option Q
}.

(** [s.endswith(suffix)]. *)
Definition ends_with (suffix s : string) : bool :=
  let n := String.length s in
  let m := String.length suffix in
  (m <=? n)%nat && String.eqb (substring (n - m) m s) suffix.

(** [s.split(',')]. *)
Fixpoint split_commas (s : string) : list string :=
  match s with
  | EmptyString => [EmptyString]
  | String c t =>
      if Ascii.eqb c ","%char then EmptyString :: split_commas t
      else match split_commas t with
           | h :: r => String c h :: r
           | [] => [String c EmptyString]
           end
  end.

(** All the fields converted, or [None] as soon as one is no number. *)
Fixpoint floats (parse : string -> option Q) (fields : list string)
  : option (list Q) :=
  match fields with
  | [] => Some []
  | f :: rest =>
      match parse f, floats parse rest with
      | Some q, Some qs => Some (q :: qs)
      | _, _ => None
      end
  end.

(** Lines 45-46: [lon, lat, *_ = map(float, coords.split(','))] on the
    stripped text. *)
Definition parse_point (env : Env) (text : string) : error + (Q * Q) :=
  match floats (parse_float env) (split_commas (strip text)) with
  | Some (lon :: lat :: _) => inr (lon, lat)
  | Some _ => inl (ValueError "not enough values to unpack")
  | None => inl (ValueError "could not convert string to float")
  end.

(** Lines 43-48: the loop over the placemarks. *)
Fixpoint parse_points (env : Env) (texts : list string)
  : error + list (Q * Q) :=
  match texts with
  | [] => inr []
  | t :: rest =>
      match parse_point env t with
      | inl e => inl e
      | inr p =>
          match parse_points env rest with
          | inl e => inl e
          | inr ps => inr (p :: ps)
          end
      end
  end.

Record Extract : Type := {
  points : list (Q * Q);
  image_bounds : (float * float) * (float * float);
  bbox : float * float * float * float
}.

(** generate_maps.py, lines 22-61. *)
Definition extract_kmz_points_and_bounds (env : Env) (extract_dir : string)
  : error + Extract :=
  match find (ends_with ".kml") (listdir env) with
  | None => inl (FileNotFoundError "No .kml file found in the KMZ.")
  | Some f =>
      let kml_file := path_join env extract_dir f in
      match placemarks_of env kml_file with
      | [] => inl (ValueError "No Point placemarks found in the KML.")
      | placemarks =>
          match parse_points env placemarks with
          | inl e => inl e
          | inr pts =>
              let minx := list_min (map fst pts) in
              let miny := list_min (map snd pts) in
              let maxx := list_max (map fst pts) in
              let maxy := list_max (map snd pts) in
              inr {| points := pts;
                     image_bounds := ((miny, minx), (maxy, maxx));
                     bbox := (minx, miny, maxx, maxy) |}
          end
      end
  end.

(** Line 66: [center = [points[0].y, points[0].x]]; [None] is Python's
    [IndexError]. *)
Definition map_center (pts : list (Q * Q)) : option (Q * Q) :=
  match pts with
  | (lon, lat) :: _ => Some (lat, lon)
  | [] => None
  end.

(** Line 379: the picture laid over the map. *)
Definition image_path : string :=
  "output_files/groundwater_contour_true_scale.png".

End Maps.

(** ** Further notions used in the statements *)



(** What the elevation loader makes of [tagged_samples]. *)
Definition tagged_loaded : DataFrame :=
  {| columns := ["Name"; "Easting"; "Northing";
                 "Groundwater Elevation mAHD"]%string;
     rows := [[CStr "TOC1-MW01"; CNum 0; CNum 0; CNum 10];
              [CStr "MW-TOC1"; CNum 5; CNum 5; CNum 11]] |}.

(** A table with the right header and no rows. *)
Definition empty_samples : DataFrame :=
  {| columns := ["Easting"; "Northing"; "Groundwater Elevation mAHD"; "Nitrate"]%string;
     rows := [] |}.

(** The status bar after a run of the launcher that starts with an empty
    log, the actions of the run, and the exception it lets through. *)
Definition status_after {A : Type} (m : Launcher.UI A) (s : Launcher.Label)
  : Launcher.Label :=
  fst (fst (m (s, []))).

Definition actions_of {A : Type} (m : Launcher.UI A) (s : Launcher.Label)
  : list Launcher.action :=
  snd (fst (m (s, []))).

Definition raised {A : Type} (m : Launcher.UI A) (s : Launcher.Label)
  : option Launcher.pyexn :=
  match snd (m (s, [])) with
  | inl e => Some e
  | inr _ => None
  end.

Definition is_message_box (a : Launcher.action) : bool :=
  match a with
  | Launcher.ShowInfo _ _ | Launcher.ShowError _ _ => true
  | _ => false
  end.

Definition is_subprocess (a : Launcher.action) : bool :=
  match a with
  | Launcher.SubprocessRun _ => true
  | _ => false
  end.

(** The nitrate image script in the place of the elevation image script. *)
Definition rename_image_script (a : Launcher.action) : Launcher.action :=
  match a with
  | Launcher.SubprocessRun script =>
      if String.eqb script Launcher.GENERATE_IMAGE_SCRIPT
      then Launcher.SubprocessRun Launcher.GENERATE_NITRATE_IMAGE_SCRIPT
      else a
  | _ => a
  end.

(** A launcher whose scripts all succeed and whose map file exists. *)
Definition all_is_well : Launcher.World :=
  {| Launcher.run_script := fun _ => Launcher.Exited0;
     Launcher.html_exists := true;
     Launcher.html_realpath := "/home/user/interactive_map.html" |}.

(** A launcher whose image script exits with an error. *)
Definition image_script_fails : Launcher.World :=
  {| Launcher.run_script := fun script =>
       if String.eqb script Launcher.GENERATE_MAPS_SCRIPT then Launcher.Exited0
       else Launcher.ExitedNonZero "Traceback";
     Launcher.html_exists := true;
     Launcher.html_realpath := "/home/user/interactive_map.html" |}.

Definition idle : Launcher.Label :=
  {| Launcher.text := "Ready"; Launcher.fg := Launcher.TEXT_COLOR |}.

(** The actions of a report that runs the image script [img], by the way
    the scripts end. *)
Definition report_actions (w : Launcher.World) (img : string) : list Launcher.action :=
  [Launcher.UpdateIdletasks; Launcher.SubprocessRun img]
  ++ match Launcher.run_script w img with
     | Launcher.Exited0 =>
         [Launcher.UpdateIdletasks; Launcher.SubprocessRun Launcher.GENERATE_MAPS_SCRIPT]
         ++ match Launcher.run_script w Launcher.GENERATE_MAPS_SCRIPT with
            | Launcher.Exited0 =>
                Launcher.UpdateIdletasks ::
                (if Launcher.html_exists w
                 then [Launcher.OpenNewTab ("file://" ++ Launcher.html_realpath w)%string;
                       Launcher.ShowInfo "Report Ready" Launcher.success_message]
                 else [Launcher.ShowError "File Not Found" Launcher.missing_message])
            | Launcher.ExitedNonZero stderr =>
                [Launcher.ShowError "Execution Error"
                   (Launcher.failure_message (Launcher.cmd_repr Launcher.GENERATE_MAPS_SCRIPT) stderr)]
            | Launcher.PythonNotFound =>
                [Launcher.ShowError "Error"
                   "Python command not found. Please ensure Python is in your system's PATH."]
            | Launcher.Failed _ => []
            end
     | Launcher.ExitedNonZero stderr =>
         [Launcher.ShowError "Execution Error" (Launcher.failure_message (Launcher.cmd_repr img) stderr)]
     | Launcher.PythonNotFound =>
         [Launcher.ShowError "Error"
            "Python command not found. Please ensure Python is in your system's PATH."]
     | Launcher.Failed _ => []
     end.

(** The exception such a report lets through. *)
Definition report_raised (w : Launcher.World) (img : string)
  : option Launcher.pyexn :=
  match Launcher.run_script w img with
  | Launcher.Failed e => Some (Launcher.OtherError e)
  | Launcher.Exited0 =>
      match Launcher.run_script w Launcher.GENERATE_MAPS_SCRIPT with
      | Launcher.Failed e => Some (Launcher.OtherError e)
      | _ => None
      end
  | _ => None
  end.

(** The fields of a coordinate text. *)
Definition coordinate_fields (text : string) : list string :=
  Maps.split_commas (strip text).

(** A text from which a point can be read: at least two fields, all of them
    numbers. *)
Definition readable (env : Maps.Env) (text : string) : Prop :=
  exists lon lat rest,
    Maps.floats (Maps.parse_float env) (coordinate_fields text)
    = Some (lon :: lat :: rest).

(** [s] ends with [suffix]. *)
Definition has_suffix (suffix s : string) : Prop :=
  exists p, s = (p ++ suffix)%string.

(** [f] is the first listed file whose name ends with [.kml]. *)
Definition first_kml (env : Maps.Env) (f : string) : Prop :=
  exists before after,
    Maps.listdir env = before ++ f :: after /\
    has_suffix ".kml" f /\
    Forall (fun g => ~ has_suffix ".kml" g) before.

(** A point read from a coordinate text: its longitude is the first field,
    its latitude the second. *)
Definition read_from (env : Maps.Env) (text : string) (p : Q * Q) : Prop :=
  exists rest,
    Maps.floats (Maps.parse_float env) (coordinate_fields text)
    = Some (fst p :: snd p :: rest).

(** An archive with two files and two placemarks; numbers are read from the
    four texts below. *)
Definition two_placemarks : Maps.Env :=
  {| Maps.listdir := ["notes.txt"; "doc.kml"]%string;
     Maps.path_join := fun d f => (d ++ "/" ++ f)%string;
     Maps.placemarks_of := fun path =>
       if String.eqb path "extracted/doc.kml"
       then [" 146.5,-36.25,0 "; "146.25,-36.5"]%string else [];
     Maps.parse_float := fun s =>
       if String.eqb s "146.5" then Some (1465 # 10)
       else if String.eqb s "146.25" then Some (14625 # 100)
       else if String.eqb s "-36.25" then Some (- (3625 # 100))
       else if String.eqb s "-36.5" then Some (- (365 # 10))
       else if String.eqb s "0" then Some 0
       else None |}.

(** An archive without a KML file. *)
Definition no_kml : Maps.Env :=
  {| Maps.listdir := ["notes.txt"; "doc.kml.bak"]%string;
     Maps.path_join := fun d f => (d ++ "/" ++ f)%string;
     Maps.placemarks_of := fun _ => [];
     Maps.parse_float := fun _ => None |}.

(** The grid [z(i, j) = c + a i + b j] of a given shape. *)
Definition plane (n m : nat) (c a b : R) : Gradient.ndarray :=
  {| Gradient.nrows := n;
     Gradient.ncols := m;
     Gradient.item := fun i j =>
       if ((i <? n) && (j <? m))%nat
       then Some (c + a * INR i + b * INR j)%R
       else None |}.

(** The rows of the table after the three coercions. *)
Definition coerced (env : Env) (i j k : nat) (r : row) : row :=
  let r1 := set_at i (to_numeric env (cell_at i r)) r in
  let r2 := set_at j (to_numeric env (cell_at j r1)) r1 in
  set_at k (to_numeric env (cell_at k r2)) r2.

Definition complete (i j k : nat) (r : row) : bool :=
  notna (cell_at i r) && notna (cell_at j r) && notna (cell_at k r).

(** * Properties *)

(** ** Interval selection *)

Lemma Qgtb_lt a b : Qgtb a b = true <-> b < a.
Proof.
  unfold Qgtb. rewrite negb_true_iff.
  destruct (Qle_bool a b) eqn:E.
  - apply Qle_bool_iff in E. split; [discriminate | intros H; lra].
  - split; [intros _ | reflexivity].
    apply Qnot_le_lt. intros H. apply Qle_bool_iff in H. congruence.
Qed.

Lemma Qgtb_le a b : Qgtb a b = false <-> a <= b.
Proof.
  unfold Qgtb. rewrite negb_false_iff. apply Qle_bool_iff.
Qed.

Lemma Qgtb_spec a b : BoolSpec (b < a) (a <= b) (Qgtb a b).
Proof.
  destruct (Qgtb a b) eqn:E; constructor.
  - now apply Qgtb_lt.
  - now apply Qgtb_le.
Qed.

Ltac tiers :=
  repeat match goal with
         | |- context [Qgtb ?a ?b] => destruct (Qgtb_spec a b)
         end; try reflexivity; try lra.

Lemma elev_interval_tiers (r : Q) :
  (10 < r -> elev_interval (fin r) = 1.0) /\
  (5 < r <= 10 -> elev_interval (fin r) = 0.5) /\
  (2 < r <= 5 -> elev_interval (fin r) = 0.2) /\
  (1 < r <= 2 -> elev_interval (fin r) = 0.1) /\
  (0.5 < r <= 1 -> elev_interval (fin r) = 0.05) /\
  (r <= 0.5 -> elev_interval (fin r) = 0.01).
Proof.
  unfold elev_interval, gt, fin. repeat split; intros; tiers.
Qed.

Lemma nitrate_interval_tiers (r : Q) :
  (10 < r -> nitrate_interval (fin r) = 1.0) /\
  (5 < r <= 10 -> nitrate_interval (fin r) = 0.5) /\
  (2 < r <= 5 -> nitrate_interval (fin r) = 0.2) /\
  (r <= 2 -> nitrate_interval (fin r) = 0.1).
Proof.
  unfold nitrate_interval, gt, fin. repeat split; intros; tiers.
Qed.

Lemma interval_of_spec (w : variant) (r : Q) :
  interval_of w (fin r) = spec_interval w r.
Proof.
  destruct w; reflexivity.
Qed.

Lemma interval_of_comp (w : variant) (r r' : Q) :
  r == r' -> interval_of w (fin r) = interval_of w (fin r').
Proof.
  intros H.
  destruct w; unfold interval_of, elev_interval, nitrate_interval, gt, fin;
    tiers.
Qed.

Lemma interval_of_pos (w : variant) (r : float) : 0 < interval_of w r.
Proof.
  destruct w; unfold interval_of, elev_interval, nitrate_interval;
    repeat match goal with
           | |- context [gt ?a ?b] => destruct (gt a b)
           end; reflexivity.
Qed.

(** ** Arithmetic progressions and the shape of the level list *)


Lemma nth_map_seq {A} (f : nat -> A) (k n i : nat) (d : A) :
  (i < n)%nat -> nth i (map f (seq k n)) d = f (k + i)%nat.
Proof.
  revert k i. induction n as [| n IH]; intros k i H; [lia |].
  destruct i; cbn.
  - f_equal. lia.
  - rewrite IH by lia. f_equal. lia.
Qed.









Lemma div_fin (a b : Q) : 0 < b -> div (fin a) (fin b) = fin (a / b).
Proof.
  intros Hb. unfold div, fin.
  destruct (Qeq_bool b 0) eqn:E; [| reflexivity].
  apply Qeq_bool_eq in E. lra.
Qed.


Lemma contour_levels_progression (w : variant) (v_min v_max : Q) :
  let interval := interval_of w (fin (v_max - v_min)) in
  contour_levels w (fin v_min) (fin v_max) =
  Ok (progression (inject_Z (Qfloor (v_min / interval)) * interval) interval
                  (level_count w v_min v_max)).
Proof.
  intros interval.
  assert (Hpos : 0 < interval) by apply interval_of_pos.
  unfold contour_levels, level_start, level_stop.
  change (sub (fin v_max) (fin v_min)) with (fin (v_max - v_min)).
  fold interval. rewrite !div_fin by assumption.
  cbn [floor ceil option_map fin mul add lift2 sub arange].
  change (Some ?x) with (fin x). rewrite div_fin by assumption.
  unfold fin, progression, level_count. fold interval.
  do 4 f_equal.
  rewrite <- (Qceiling_Z (Qceiling (v_max / interval) - Qfloor (v_min / interval) + 1)).
  apply Qceiling_comp.
  rewrite inject_Z_plus. unfold Zminus. rewrite inject_Z_plus, inject_Z_opp.
  field. apply Qnot_eq_sym, Qlt_not_eq, Hpos.
Qed.

(** ** Claims on contour levels *)

(** The boundary values the specification asks to test, for both tables. *)
Example interval_boundaries :
  map (fun r => elev_interval (fin r)) [10.0; 10.0001; 5.0; 2.0; 1.0; 0.5; 0.01; 0]
  = [0.5; 1.0; 0.2; 0.1; 0.05; 0.01; 0.01; 0.01] /\
  map (fun r => nitrate_interval (fin r)) [10.0; 10.0001; 5.0; 2.0; 1.0; 0.5; 0.01; 0]
  = [0.5; 1.0; 0.2; 0.1; 0.1; 0.1; 0.1; 0.1].
Proof. split; reflexivity. Qed.

(** C1.  The interval depends on the range width [r = v_max - v_min] only,
    and for every [r >= 0] it is the tier of the specification's table:
    elevation 1.0 if [r > 10], else 0.5 if [r > 5], else 0.2 if [r > 2],
    else 0.1 if [r > 1], else 0.05 if [r > 0.5], else 0.01; nitrate 1.0 if
    [r > 10], else 0.5 if [r > 5], else 0.2 if [r > 2], else 0.1. *)
Theorem interval_selection_table (v_min v_max r : Q) :
  r == v_max - v_min -> 0 <= r ->
  let elev := interval_of Elevation (sub (fin v_max) (fin v_min)) in
  let nitr := interval_of Nitrate (sub (fin v_max) (fin v_min)) in
  ((10 < r -> elev = 1.0) /\
   (5 < r <= 10 -> elev = 0.5) /\
   (2 < r <= 5 -> elev = 0.2) /\
   (1 < r <= 2 -> elev = 0.1) /\
   (0.5 < r <= 1 -> elev = 0.05) /\
   (r <= 0.5 -> elev = 0.01)) /\
  ((10 < r -> nitr = 1.0) /\
   (5 < r <= 10 -> nitr = 0.5) /\
   (2 < r <= 5 -> nitr = 0.2) /\
   (r <= 2 -> nitr = 0.1)) /\
  elev = spec_interval Elevation r /\ nitr = spec_interval Nitrate r.
Proof.
  intros Hr _ elev nitr.
  assert (He : elev = elev_interval (fin r)).
  { symmetry. apply (interval_of_comp Elevation), Hr. }
  assert (Hn : nitr = nitrate_interval (fin r)).
  { symmetry. apply (interval_of_comp Nitrate), Hr. }
  rewrite He, Hn.
  split; [apply elev_interval_tiers |].
  split; [apply nitrate_interval_tiers |].
  split; [apply (interval_of_spec Elevation) | apply (interval_of_spec Nitrate)].
Qed.

Lemma interval_selection_table_witness :
  interval_of Elevation (sub (fin 14) (fin 8)) = 0.5 /\
  interval_of Nitrate (sub (fin 14) (fin 8)) = 0.5.
Proof.
  assert (H1 : 6 == 14 - 8) by reflexivity.
  assert (H2 : 0 <= 6) by (vm_compute; discriminate).
  destruct (interval_selection_table 8 14 6 H1 H2) as (He & Hn & _).
  split.
  - apply He. split; vm_compute; [reflexivity | discriminate].
  - apply Hn. split; vm_compute; [reflexivity | discriminate].
Defined.








(** ** Minima and maxima; one axis of the grid *)

Lemma fold_Qmin_minimum (xs : list Q) (x : Q) :
  minimum_of (fold_left Qmin xs x) (x :: xs).
Proof.
  revert x. induction xs as [| y ys IH]; intros x; cbn.
  - split; [apply Exists_cons_hd; reflexivity |].
    constructor; [apply Qle_refl | constructor].
  - destruct (IH (Qmin x y)) as (Hex & Hall).
    inversion Hall as [| ? ? Hm Hys]; subst.
    assert (H1 := Q.le_min_l x y). assert (H2 := Q.le_min_r x y).
    split.
    + inversion Hex as [? ? Heq | ? ? Hin]; subst.
      * destruct (Q.min_spec x y) as [(_ & E) | (_ & E)].
        -- apply Exists_cons_hd. lra.
        -- apply Exists_cons_tl, Exists_cons_hd. lra.
      * now apply Exists_cons_tl, Exists_cons_tl.
    + constructor; [lra |]. constructor; [lra | assumption].
Qed.

Lemma fold_Qmax_maximum (xs : list Q) (x : Q) :
  maximum_of (fold_left Qmax xs x) (x :: xs).
Proof.
  revert x. induction xs as [| y ys IH]; intros x; cbn.
  - split; [apply Exists_cons_hd; reflexivity |].
    constructor; [apply Qle_refl | constructor].
  - destruct (IH (Qmax x y)) as (Hex & Hall).
    inversion Hall as [| ? ? Hm Hys]; subst.
    assert (H1 := Q.le_max_l x y). assert (H2 := Q.le_max_r x y).
    split.
    + inversion Hex as [? ? Heq | ? ? Hin]; subst.
      * destruct (Q.max_spec x y) as [(_ & E) | (_ & E)].
        -- apply Exists_cons_tl, Exists_cons_hd. lra.
        -- apply Exists_cons_hd. lra.
      * now apply Exists_cons_tl, Exists_cons_tl.
    + constructor; [lra |]. constructor; [lra | assumption].
Qed.

Lemma list_min_minimum (l : list Q) :
  l <> [] -> exists m, list_min l = fin m /\ minimum_of m l.
Proof.
  destruct l as [| x xs]; [congruence | intros _].
  eexists. split; [reflexivity | apply fold_Qmin_minimum].
Qed.

Lemma list_max_maximum (l : list Q) :
  l <> [] -> exists m, list_max l = fin m /\ maximum_of m l.
Proof.
  destruct l as [| x xs]; [congruence | intros _].
  eexists. split; [reflexivity | apply fold_Qmax_maximum].
Qed.

Lemma minimum_le_maximum (l : list Q) (a b : Q) :
  minimum_of a l -> maximum_of b l -> a <= b.
Proof.
  intros (Ha & _) (_ & Hb). apply Exists_exists in Ha.
  destruct Ha as (x & Hx & E). rewrite Forall_forall in Hb.
  specialize (Hb x Hx). lra.
Qed.

Lemma minimum_unique (l : list Q) (a b : Q) :
  minimum_of a l -> minimum_of b l -> a == b.
Proof.
  intros (Ha & Ha') (Hb & Hb').
  apply Exists_exists in Ha, Hb. rewrite Forall_forall in Ha', Hb'.
  destruct Ha as (x & Hx & Ex), Hb as (y & Hy & Ey).
  specialize (Ha' y Hy). specialize (Hb' x Hx). lra.
Qed.

Lemma maximum_unique (l : list Q) (a b : Q) :
  maximum_of a l -> maximum_of b l -> a == b.
Proof.
  intros (Ha & Ha') (Hb & Hb').
  apply Exists_exists in Ha, Hb. rewrite Forall_forall in Ha', Hb'.
  destruct Ha as (x & Hx & Ex), Hb as (y & Hy & Ey).
  specialize (Ha' y Hy). specialize (Hb' x Hx). lra.
Qed.

(** Folding [fmin]/[fmax] over finite floats is folding [Qmin]/[Qmax]. *)
Lemma fold_fmin_finite (qs : list Q) (q : Q) :
  fold_left fmin (map fin qs) (fin q) = fin (fold_left Qmin qs q).
Proof.
  revert q. induction qs as [| y ys IH]; intros q; cbn; [reflexivity |].
  apply IH.
Qed.

Lemma fold_fmax_finite (qs : list Q) (q : Q) :
  fold_left fmax (map fin qs) (fin q) = fin (fold_left Qmax qs q).
Proof.
  revert q. induction qs as [| y ys IH]; intros q; cbn; [reflexivity |].
  apply IH.
Qed.

Lemma amin_finite (a : array) (qs : list Q) :
  List.concat a = map fin qs -> amin a = list_min qs.
Proof.
  intros E. unfold amin. rewrite E. destruct qs as [| q qs]; cbn; [reflexivity |].
  apply fold_fmin_finite.
Qed.

Lemma amax_finite (a : array) (qs : list Q) :
  List.concat a = map fin qs -> amax a = list_max qs.
Proof.
  intros E. unfold amax. rewrite E. destruct qs as [| q qs]; cbn; [reflexivity |].
  apply fold_fmax_finite.
Qed.

Lemma axis_point_finite (a b : Q) (i : nat) :
  axis_point (fin a) (fin b) i = fin (axis_value a b i).
Proof. reflexivity. Qed.

Lemma axis_value_first (a b : Q) : axis_value a b 0 == a.
Proof. unfold axis_value. cbn. ring. Qed.

Lemma axis_value_last (a b : Q) : axis_value a b (resolution - 1) == b.
Proof. unfold axis_value. cbn. field. Qed.

Lemma axis_value_bounds (a b : Q) (i : nat) :
  a <= b -> (i < resolution)%nat -> a <= axis_value a b i <= b.
Proof.
  intros Hab Hi. unfold axis_value.
  assert (H0 : 0 <= inject_Z (Z.of_nat i)).
  { change 0 with (inject_Z 0). rewrite <- Zle_Qle. lia. }
  assert (H1 : inject_Z (Z.of_nat i) <= inject_Z (Z.of_nat (resolution - 1))).
  { rewrite <- Zle_Qle. unfold resolution in *. lia. }
  change (inject_Z (Z.of_nat (resolution - 1))) with 99 in *.
  set (t := inject_Z (Z.of_nat i)) in *.
  assert (E : t * ((b - a) / 99) == t * (b - a) / 99) by (field).
  rewrite E. split.
  - assert (0 <= t * (b - a)) by nra.
    assert (0 <= t * (b - a) / 99).
    { apply Qle_shift_div_l; [reflexivity | lra]. }
    lra.
  - assert (t * (b - a) <= 99 * (b - a)) by nra.
    assert (t * (b - a) / 99 <= b - a).
    { apply Qle_shift_div_r; [reflexivity | lra]. }
    lra.
Qed.

(** ** The loaders produce validated tables *)

Lemma cell_at_set_at_same (i : nat) (c : cell) (r : row) :
  cell_at i (set_at i c r) = c.
Proof.
  unfold cell_at. revert r. induction i as [| i IH]; intros [| x t]; cbn; auto.
Qed.

Lemma cell_at_nil (j : nat) : cell_at j [] = CNaN.
Proof. unfold cell_at. destruct j; reflexivity. Qed.

Lemma cell_at_set_at_other (i j : nat) (c : cell) (r : row) :
  i <> j -> cell_at j (set_at i c r) = cell_at j r.
Proof.
  unfold cell_at. revert j r.
  induction i as [| i IH]; intros [| j] [| x t] H; cbn; try congruence.
  - now destruct j.
  - rewrite IH by congruence. now destruct j.
  - apply IH. congruence.
Qed.

Section Loading.

Variable env : Env.

Lemma to_numeric_not_str (c : cell) : not_str (to_numeric env c) = true.
Proof.
  destruct c; cbn; try reflexivity. now destruct (parse_number env s).
Qed.

Lemma not_str_coerce (i j : nat) (r : row) :
  not_str (cell_at j r) = true ->
  not_str (cell_at j (set_at i (to_numeric env (cell_at i r)) r)) = true.
Proof.
  intros H. destruct (Nat.eq_dec i j) as [-> | Hne].
  - rewrite cell_at_set_at_same. apply to_numeric_not_str.
  - now rewrite cell_at_set_at_other.
Qed.

Lemma not_str_coerced (i : nat) (r : row) :
  not_str (cell_at i (set_at i (to_numeric env (cell_at i r)) r)) = true.
Proof. rewrite cell_at_set_at_same. apply to_numeric_not_str. Qed.

Lemma notna_not_str_num (c : cell) :
  notna c = true -> not_str c = true -> is_num c = true.
Proof. now destruct c. Qed.

Lemma coerce_and_drop_validated (value : string) (df0 df : DataFrame) :
  coerce_and_drop env value df0 = Ok df -> validated value df.
Proof.
  unfold coerce_and_drop, to_numeric_column, dropna, rbind. cbn.
  destruct (index_of "Easting" (columns df0)) as [i |] eqn:Ei; [| discriminate].
  cbn. destruct (index_of "Northing" (columns df0)) as [j |] eqn:Ej;
    [| discriminate].
  cbn. destruct (index_of value (columns df0)) as [k |] eqn:Ek;
    [| discriminate].
  cbn. rewrite Ei, Ej, Ek. intros E. injection E as <-.
  exists i, j, k. cbn. repeat split; try assumption.
  apply Forall_forall. intros r Hr.
  apply filter_In in Hr. destruct Hr as (Hr & Hn).
  apply andb_prop in Hn. destruct Hn as (Hn & Hk).
  apply andb_prop in Hn. destruct Hn as (Hi & Hj).
  rewrite !map_map in Hr. apply in_map_iff in Hr.
  destruct Hr as (r0 & <- & _).
  repeat split; apply notna_not_str_num; try assumption.
  - apply not_str_coerce, not_str_coerce, not_str_coerced.
  - apply not_str_coerce, not_str_coerced.
  - apply not_str_coerced.
Qed.



End Loading.

(** ** The grid spans the bounding box *)

Lemma tabulate_concat (n : nat) (f : nat -> nat -> Q) :
  List.concat (tabulate n f) = map fin (tabulate_values n f).
Proof.
  unfold tabulate, tabulate_values. rewrite concat_map, map_map.
  f_equal. apply map_ext. intros i. now rewrite map_map.
Qed.

Lemma tabulate_values_in (n : nat) (f : nat -> nat -> Q) (q : Q) :
  In q (tabulate_values n f) <->
  exists i j, (i < n)%nat /\ (j < n)%nat /\ q = f i j.
Proof.
  unfold tabulate_values. rewrite in_concat. split.
  - intros (l & Hl & Hq). apply in_map_iff in Hl. destruct Hl as (i & <- & Hi).
    apply in_map_iff in Hq. destruct Hq as (j & <- & Hj).
    apply in_seq in Hi, Hj. exists i, j. repeat split; lia.
  - intros (i & j & Hi & Hj & ->).
    exists (map (fun j => f i j) (seq 0 n)). split.
    + apply in_map_iff. exists i. split; [reflexivity | apply in_seq; lia].
    + apply in_map_iff. exists j. split; [reflexivity | apply in_seq; lia].
Qed.

Lemma tabulate_lookup (n : nat) (f : nat -> nat -> Q) (i j : nat) :
  (i < n)%nat -> (j < n)%nat -> lookup (tabulate n f) i j = fin (f i j).
Proof.
  intros Hi Hj. unfold lookup, tabulate.
  rewrite (nth_map_seq _ 0 n i) by assumption.
  now rewrite (nth_map_seq _ 0 n j).
Qed.

Lemma list_min_eqv (l : list Q) (a : Q) :
  minimum_of a l -> eqv (list_min l) (fin a).
Proof.
  intros H. destruct l as [| x xs].
  - destruct H as (H & _). inversion H.
  - cbn. apply (minimum_unique (x :: xs)); [apply fold_Qmin_minimum | exact H].
Qed.

Lemma list_max_eqv (l : list Q) (a : Q) :
  maximum_of a l -> eqv (list_max l) (fin a).
Proof.
  intros H. destruct l as [| x xs].
  - destruct H as (H & _). inversion H.
  - cbn. apply (maximum_unique (x :: xs)); [apply fold_Qmax_maximum | exact H].
Qed.

Lemma amin_tabulate (n : nat) (f : nat -> nat -> Q) (lo : Q) (i0 j0 : nat) :
  (i0 < n)%nat -> (j0 < n)%nat -> lo == f i0 j0 ->
  (forall i j, (i < n)%nat -> (j < n)%nat -> lo <= f i j) ->
  eqv (amin (tabulate n f)) (fin lo).
Proof.
  intros Hi Hj E Hall.
  rewrite (amin_finite _ _ (tabulate_concat n f)).
  apply list_min_eqv. split.
  - apply Exists_exists. exists (f i0 j0). split; [| exact E].
    apply tabulate_values_in. now exists i0, j0.
  - apply Forall_forall. intros q Hq. apply tabulate_values_in in Hq.
    destruct Hq as (i & j & Hi' & Hj' & ->). now apply Hall.
Qed.

Lemma amax_tabulate (n : nat) (f : nat -> nat -> Q) (hi : Q) (i0 j0 : nat) :
  (i0 < n)%nat -> (j0 < n)%nat -> hi == f i0 j0 ->
  (forall i j, (i < n)%nat -> (j < n)%nat -> f i j <= hi) ->
  eqv (amax (tabulate n f)) (fin hi).
Proof.
  intros Hi Hj E Hall.
  rewrite (amax_finite _ _ (tabulate_concat n f)).
  apply list_max_eqv. split.
  - apply Exists_exists. exists (f i0 j0). split; [| exact E].
    apply tabulate_values_in. now exists i0, j0.
  - apply Forall_forall. intros q Hq. apply tabulate_values_in in Hq.
    destruct Hq as (i & j & Hi' & Hj' & ->). now apply Hall.
Qed.

Lemma mgrid_finite (a b c d : Q) :
  mgrid (fin a) (fin b) (fin c) (fin d) =
  (tabulate resolution (fun i _ => axis_value a b i),
   tabulate resolution (fun _ j => axis_value c d j)).
Proof. reflexivity. Qed.

Lemma mgrid_spans (a b c d : Q) :
  a <= b -> c <= d -> spans (mgrid (fin a) (fin b) (fin c) (fin d)) a b c d.
Proof.
  intros Hab Hcd. rewrite mgrid_finite.
  assert (H0 : (0 < resolution)%nat) by (unfold resolution; lia).
  assert (H9 : (resolution - 1 < resolution)%nat) by (unfold resolution; lia).
  constructor; cbn [fst snd].
  - unfold tabulate. now rewrite !length_map, !length_seq.
  - unfold tabulate. split; apply Forall_forall; intros r Hr;
      apply in_map_iff in Hr; destruct Hr as (i & <- & _);
      now rewrite length_map, length_seq.
  - intros i j Hi Hj. exists (axis_value a b i), (axis_value c d j).
    rewrite !tabulate_lookup by assumption.
    repeat split; try apply axis_value_bounds; assumption.
  - rewrite !tabulate_lookup by assumption. split; apply axis_value_first.
  - rewrite !tabulate_lookup by assumption. split; apply axis_value_last.
  - split; apply (amin_tabulate _ _ _ 0 0 H0 H0);
      try (symmetry; apply axis_value_first);
      intros i j Hi Hj; now apply axis_value_bounds.
  - split; apply (amax_tabulate _ _ _ _ _ H9 H9);
      try (symmetry; apply axis_value_last);
      intros i j Hi Hj; now apply axis_value_bounds.
Qed.

(** ** Run equations *)

Lemma numbers_cons_num (q : Q) (s : list cell) :
  numbers (CNum q :: s) = q :: numbers s.
Proof. reflexivity. Qed.

Lemma numbers_all_num (s : list cell) :
  Forall (fun c => is_num c = true) s ->
  List.length (numbers s) = List.length s /\
  map to_float s = map fin (numbers s).
Proof.
  induction 1 as [| c s Hc _ (IH1 & IH2)]; [now split |].
  destruct c; try discriminate. rewrite numbers_cons_num. cbn.
  split; [now rewrite IH1 | now rewrite IH2].
Qed.

(** The extremes of a non-empty numeric column. *)
Lemma series_extremes (s : list cell) :
  Forall (fun c => is_num c = true) s -> s <> [] ->
  exists lo hi,
    series_min s = fin lo /\ series_max s = fin hi /\
    minimum_of lo (numbers s) /\ maximum_of hi (numbers s) /\ lo <= hi.
Proof.
  intros Hs Hne. destruct (numbers_all_num s Hs) as (Hlen & _).
  assert (Hn : numbers s <> []).
  { intros E. rewrite E in Hlen. destruct s; [congruence | discriminate]. }
  destruct (list_min_minimum _ Hn) as (lo & E1 & H1).
  destruct (list_max_maximum _ Hn) as (hi & E2 & H2).
  exists lo, hi. repeat split; try assumption;
    try apply H1; try apply H2.
  eapply minimum_le_maximum; eassumption.
Qed.

(** The columns of a validated table. *)
Lemma validated_series (value : string) (df : DataFrame) :
  validated value df ->
  exists es ns vs,
    series "Easting" df = Ok es /\ series "Northing" df = Ok ns /\
    series value df = Ok vs /\
    Forall (fun c => is_num c = true) es /\
    Forall (fun c => is_num c = true) ns /\
    Forall (fun c => is_num c = true) vs /\
    List.length es = List.length (rows df) /\
    List.length ns = List.length (rows df) /\
    List.length vs = List.length (rows df).
Proof.
  intros (i & j & k & Ei & Ej & Ek & Hall).
  unfold series. rewrite Ei, Ej, Ek.
  do 3 eexists. do 3 (split; [reflexivity |]).
  rewrite !length_map. repeat split; apply Forall_map;
    (eapply Forall_impl; [| exact Hall]); cbn; tauto.
Qed.

Section Runs.

Variable env : Env.

Lemma write_bounds_run (path : string) (grid : array * array) :
  write_bounds env path grid = (bounds_events env path grid, Ok tt).
Proof.
  destruct grid as (grid_x, grid_y). unfold write_bounds, bounds_events.
  cbn [fst snd].
  destruct (pyproj_transform env SRC_CRS DST_CRS true (amin grid_x) (amin grid_y)).
  destruct (pyproj_transform env SRC_CRS DST_CRS true (amax grid_x) (amax grid_y)).
  reflexivity.
Qed.

Lemma contour_elevation_run (df : DataFrame) (grid : array * array) :
  build_grid df = Ok grid ->
  contour_elevation env df =
  let b := bounds_events env "output_files/image_bounds.json" grid in
  match interpolate env ELEVATION df grid with
  | Raise e => (b, Raise e)
  | Ok _ =>
      match elevation_range df with
      | Raise e => (b, Raise e)
      | Ok range =>
          match contour_levels Elevation (fst range) (snd range) with
          | Raise e => (b, Raise e)
          | Ok levels => (b ++ render_events levels, Ok tt)
          end
      end
  end.
Proof.
  intros E. unfold contour_elevation. rewrite E. cbn [lift bind].
  rewrite write_bounds_run. cbn [bind app].
  destruct (interpolate env ELEVATION df grid); cbn; [| reflexivity].
  destruct (elevation_range df) as [range |]; cbn; [| reflexivity].
  destruct (contour_levels Elevation (fst range) (snd range)); reflexivity.
Qed.

Lemma contour_nitrate_run (df : DataFrame) (grid : array * array) :
  build_grid df = Ok grid ->
  contour_nitrate env df =
  let b := bounds_events env "output_files/nitrate_bounds.json" grid in
  match interpolate env NITRATE df grid with
  | Raise e => (b, Raise e)
  | Ok grid_nitrate =>
      match contour_levels Nitrate (nanmin grid_nitrate) (nanmax grid_nitrate) with
      | Raise e => (b, Raise e)
      | Ok levels => (b ++ render_events levels, Ok tt)
      end
  end.
Proof.
  intros E. unfold contour_nitrate. rewrite E. cbn [lift bind].
  rewrite write_bounds_run. cbn [bind app].
  destruct (interpolate env NITRATE df grid) as [g |]; cbn; [| reflexivity].
  destruct (contour_levels Nitrate (nanmin g) (nanmax g)); reflexivity.
Qed.

Lemma main_elevation_loaded (df0 df : DataFrame) :
  load_elevation env df0 = Ok df ->
  main_elevation env df0 = contour_elevation env df.
Proof.
  intros E. unfold main_elevation, lift, bind. rewrite E.
  now destruct (contour_elevation env df).
Qed.

Lemma main_nitrate_loaded (df0 df : DataFrame) :
  load_nitrate env df0 = Ok df ->
  main_nitrate env df0 = contour_nitrate env df.
Proof.
  intros E. unfold main_nitrate, lift, bind. rewrite E.
  now destruct (contour_nitrate env df).
Qed.


End Runs.

(** ** Claims on the grid and the bounds *)

Lemma five_samples_validated (value : string) :
  value = ELEVATION \/ value = NITRATE -> validated value five_samples.
Proof.
  intros [-> | ->].
  - exists 0%nat, 1%nat, 2%nat. repeat split. repeat constructor.
  - exists 0%nat, 1%nat, 3%nat. repeat split. repeat constructor.
Qed.













(** ** Interpolation and the value range *)




Lemma nitrate_range_all_nan (g : array) :
  finite_values g = [] -> nitrate_range g = (NaN, NaN).
Proof.
  intros E. unfold nitrate_range, nanmin, nanmax. now rewrite E.
Qed.





(** With an all-NaN grid the elevation script still completes; the nitrate
    script stops in [np.arange]. *)
Example all_undefined_grid_runs :
  outcome (main_elevation blank_env three_samples) = Ok tt /\
  outcome (main_nitrate blank_env three_samples)
  = Raise (ValueError "arange: cannot compute length").
Proof. split; vm_compute; reflexivity. Qed.



(** ** The tag filter *)

Section Filter.

Variable env : Env.
Hypothesis numbers_have_no_tag :
  forall q, contains "TOC1" (str_of_number env q) = false.

Lemma astype_str_contains (c : cell) :
  contains "TOC1" (astype_str env c) = str_contains "TOC1" c.
Proof.
  destruct c; cbn [astype_str str_contains]; auto.
Qed.

Lemma existsb_tag (i : nat) (l : list row) :
  existsb (fun r => contains "TOC1" (astype_str env (cell_at i r))) l
  = existsb (fun r => str_contains "TOC1" (cell_at i r)) l.
Proof.
  induction l as [| r l IH]; cbn [existsb]; [reflexivity |].
  now rewrite astype_str_contains, IH.
Qed.

End Filter.

(** C8.  When the table has a [Name] column and some row's name contains
    [TOC1], exactly the rows whose name contains [TOC1] are kept; when no
    row matches, or there is no [Name] column, the table is unchanged. *)
Theorem toc1_filter_applies_only_on_a_match (env : Env) (df : DataFrame) :
  (forall q, contains "TOC1" (str_of_number env q) = false) ->
  columns (filter_toc1 env df) = columns df /\
  (forall i,
     index_of "Name" (columns df) = Some i ->
     Exists (fun r => str_contains "TOC1" (cell_at i r) = true) (rows df) ->
     rows (filter_toc1 env df)
     = filter (fun r => str_contains "TOC1" (cell_at i r)) (rows df)) /\
  (forall i,
     index_of "Name" (columns df) = Some i ->
     Forall (fun r => str_contains "TOC1" (cell_at i r) = false) (rows df) ->
     filter_toc1 env df = df) /\
  (index_of "Name" (columns df) = None -> filter_toc1 env df = df).
Proof.
  intros Hnum. unfold filter_toc1.
  destruct (index_of "Name" (columns df)) as [i |] eqn:Ei.
  2: { repeat split; try discriminate; auto. }
  rewrite (existsb_tag env Hnum).
  split; [now destruct (existsb _ (rows df)) |].
  split; [| split; [| discriminate]].
  - intros i' E Hex. injection E as <-.
    assert (Ht : existsb (fun r => str_contains "TOC1" (cell_at i r)) (rows df)
                 = true).
    { apply existsb_exists. apply Exists_exists in Hex. exact Hex. }
    now rewrite Ht.
  - intros i' E Hall. injection E as <-.
    destruct (existsb _ (rows df)) eqn:Ht; [| reflexivity].
    apply existsb_exists in Ht. destruct Ht as (r & Hr & Hc).
    rewrite Forall_forall in Hall. specialize (Hall r Hr). congruence.
Qed.


Lemma toc1_filter_applies_only_on_a_match_witness :
  rows (filter_toc1 (example_env 0) (strip_columns tagged_samples))
  = [[CStr "TOC1-MW01"; CNum 0; CNum 0; CNum 10];
     [CStr "MW-TOC1"; CNum 5; CNum 5; CNum 11]] /\
  filter_toc1 (example_env 0) five_samples = five_samples.
Proof.
  split.
  - destruct (toc1_filter_applies_only_on_a_match
                (example_env 0) (strip_columns tagged_samples)
                (fun _ => eq_refl)) as (_ & H & _).
    rewrite (H 0%nat eq_refl).
    + reflexivity.
    + apply Exists_cons_hd. reflexivity.
  - destruct (toc1_filter_applies_only_on_a_match
                (example_env 0) five_samples (fun _ => eq_refl)) as (_ & _ & _ & H).
    apply H. reflexivity.
Defined.

(** ** More on interval selection and contour levels *)

Lemma Qle_const_dec (a b : Q) : Qle_bool a b = true -> a <= b.
Proof. apply Qle_bool_iff. Qed.

(** X1.  Both tables are monotone: a wider range never selects a smaller
    interval; for one range the nitrate interval is never below the
    elevation interval; and an undefined (NaN) range selects the smallest
    tier of each table. *)
Theorem interval_monotone_in_range (w : variant) (r r' : Q) :
  r <= r' ->
  interval_of w (fin r) <= interval_of w (fin r') /\
  elev_interval (fin r) <= nitrate_interval (fin r) /\
  elev_interval NaN = 0.01 /\ nitrate_interval NaN = 0.1.
Proof.
  intros H. split; [| split; [| split; reflexivity]].
  - destruct w; unfold interval_of, elev_interval, nitrate_interval, gt, fin;
      repeat match goal with
             | |- context [Qgtb ?a ?b] => destruct (Qgtb_spec a b)
             end;
      try (apply Qle_const_dec; reflexivity); lra.
  - unfold elev_interval, nitrate_interval, gt, fin;
      repeat match goal with
             | |- context [Qgtb ?a ?b] => destruct (Qgtb_spec a b)
             end;
      try (apply Qle_const_dec; reflexivity); lra.
Qed.

Lemma interval_monotone_in_range_witness :
  interval_of Elevation (fin 0.7) <= interval_of Elevation (fin 6) /\
  elev_interval (fin 0.7) <= nitrate_interval (fin 0.7).
Proof.
  assert (H : 0.7 <= 6) by (vm_compute; discriminate).
  destruct (interval_monotone_in_range Elevation 0.7 6 H) as (H1 & H2 & _).
  split; assumption.
Defined.







(** X4.  Computing the levels fails exactly when a bound of the range is
    NaN, with NumPy's "arange: cannot compute length"; for finite bounds it
    always returns a list. *)
Theorem contour_levels_fail_exactly_on_nan (w : variant) (v_min v_max : float) :
  ((exists levels, contour_levels w v_min v_max = Ok levels) <->
   (v_min <> NaN /\ v_max <> NaN)) /\
  ((v_min = NaN \/ v_max = NaN) ->
   contour_levels w v_min v_max
   = Raise (ValueError "arange: cannot compute length")).
Proof.
  assert (Hnan : (v_min = NaN \/ v_max = NaN) ->
                 contour_levels w v_min v_max
                 = Raise (ValueError "arange: cannot compute length")).
  { intros H.
    destruct v_min as [a |], v_max as [b |]; destruct H as [H | H];
      try discriminate H; destruct w; reflexivity. }
  split; [| exact Hnan].
  split.
  - intros (levels & E). split; intros ->.
    + rewrite Hnan in E by (now left). discriminate E.
    + rewrite Hnan in E by (now right). discriminate E.
  - intros (Ha & Hb).
    destruct v_min as [a |]; [| exfalso; apply Ha; reflexivity].
    destruct v_max as [b |]; [| exfalso; apply Hb; reflexivity].
    eexists. apply contour_levels_progression.
Qed.

Lemma contour_levels_fail_exactly_on_nan_witness :
  contour_levels Nitrate NaN NaN
  = Raise (ValueError "arange: cannot compute length").
Proof.
  apply (proj2 (contour_levels_fail_exactly_on_nan Nitrate NaN NaN)).
  left. reflexivity.
Defined.

(** ** More on loading *)

Lemma filter_toc1_columns (env : Env) (df : DataFrame) :
  columns (filter_toc1 env df) = columns df.
Proof.
  unfold filter_toc1. destruct (index_of "Name" (columns df)); [| reflexivity].
  now destruct (existsb _ (rows df)).
Qed.

Lemma drop_unmeasured_columns (df : DataFrame) :
  columns (drop_unmeasured df) = columns df.
Proof.
  unfold drop_unmeasured. now destruct (index_of ELEVATION (columns df)).
Qed.

Lemma filter_toc1_rows_incl (env : Env) (df : DataFrame) :
  incl (rows (filter_toc1 env df)) (rows df).
Proof.
  unfold filter_toc1. destruct (index_of "Name" (columns df));
    [| apply incl_refl].
  destruct (existsb _ (rows df)); [| apply incl_refl].
  cbn. apply incl_filter.
Qed.




(** What the common tail of the loaders returns. *)
Lemma coerce_and_drop_cases (env : Env) (value : string) (df : DataFrame) :
  match index_of "Easting" (columns df), index_of "Northing" (columns df),
        index_of value (columns df) with
  | None, _, _ => coerce_and_drop env value df = Raise (KeyError "Easting")
  | Some _, None, _ => coerce_and_drop env value df = Raise (KeyError "Northing")
  | Some _, Some _, None => coerce_and_drop env value df = Raise (KeyError value)
  | Some i, Some j, Some k =>
      coerce_and_drop env value df
      = Ok {| columns := columns df;
              rows := filter (complete i j k) (map (coerced env i j k) (rows df)) |}
  end.
Proof.
  unfold coerce_and_drop, to_numeric_column, dropna, rbind, select. cbn.
  destruct (index_of "Easting" (columns df)) as [i |] eqn:Ei; [| reflexivity].
  cbn. destruct (index_of "Northing" (columns df)) as [j |] eqn:Ej;
    [| reflexivity].
  cbn. destruct (index_of value (columns df)) as [k |] eqn:Ek; [| reflexivity].
  cbn. rewrite Ei, Ej, Ek. rewrite !map_map. reflexivity.
Qed.





Lemma set_at_same (i : nat) (r : row) :
  cell_at i r <> CNaN -> set_at i (cell_at i r) r = r.
Proof.
  unfold cell_at. revert r.
  induction i as [| i IH]; intros [| x t] H; cbn in *; try congruence.
  f_equal. now apply IH.
Qed.

Lemma to_numeric_num (env : Env) (c : cell) :
  is_num c = true -> to_numeric env c = c.
Proof. now destruct c. Qed.

Lemma is_num_not_nan (c : cell) : is_num c = true -> c <> CNaN.
Proof. now destruct c. Qed.

(** Coercion leaves a row with three numbers as it is. *)
Lemma coerced_numeric (env : Env) (i j k : nat) (r : row) :
  is_num (cell_at i r) = true -> is_num (cell_at j r) = true ->
  is_num (cell_at k r) = true ->
  coerced env i j k r = r /\ complete i j k r = true.
Proof.
  intros Hi Hj Hk. unfold coerced, complete. cbv zeta.
  rewrite (to_numeric_num env _ Hi), (set_at_same i r (is_num_not_nan _ Hi)).
  rewrite (to_numeric_num env _ Hj), (set_at_same j r (is_num_not_nan _ Hj)).
  rewrite (to_numeric_num env _ Hk), (set_at_same k r (is_num_not_nan _ Hk)).
  split; [reflexivity |].
  destruct (cell_at i r), (cell_at j r), (cell_at k r); try discriminate;
    reflexivity.
Qed.

Lemma coerced_complete_numeric (env : Env) (i j k : nat) (r : row) :
  complete i j k (coerced env i j k r) = true ->
  is_num (cell_at i (coerced env i j k r)) = true /\
  is_num (cell_at j (coerced env i j k r)) = true /\
  is_num (cell_at k (coerced env i j k r)) = true.
Proof.
  unfold complete. intros H.
  apply andb_prop in H. destruct H as (H & Hk).
  apply andb_prop in H. destruct H as (Hi & Hj).
  repeat split; apply notna_not_str_num; try assumption; unfold coerced;
    cbv zeta.
  - apply not_str_coerce, not_str_coerce, not_str_coerced.
  - apply not_str_coerce, not_str_coerced.
  - apply not_str_coerced.
Qed.

Lemma map_id_on {A} (f : A -> A) (l : list A) :
  (forall x, In x l -> f x = x) -> map f l = l.
Proof.
  induction l as [| x l IH]; intros H; cbn; [reflexivity |].
  rewrite H by now left. f_equal. apply IH. intros y Hy. apply H. now right.
Qed.

Lemma filter_all {A} (f : A -> bool) (l : list A) :
  (forall x, In x l -> f x = true) -> filter f l = l.
Proof.
  induction l as [| x l IH]; intros H; cbn; [reflexivity |].
  rewrite H by now left. f_equal. apply IH. intros y Hy. apply H. now right.
Qed.

(** A validated table passes the coercions and [dropna] unchanged. *)
Lemma coerce_and_drop_validated_fixed (env : Env) (value : string)
  (df : DataFrame) :
  validated value df -> coerce_and_drop env value df = Ok df.
Proof.
  intros (i & j & k & Ei & Ej & Ek & Hall).
  assert (H := coerce_and_drop_cases env value df).
  rewrite Ei, Ej, Ek in H. rewrite H. destruct df as [cols rs]. cbn in *.
  f_equal. f_equal. rewrite Forall_forall in Hall.
  rewrite map_id_on.
  - apply filter_all. intros r Hr. destruct (Hall r Hr) as (A & B & C).
    now apply (coerced_numeric env i j k r).
  - intros r Hr. destruct (Hall r Hr) as (A & B & C).
    now apply (coerced_numeric env i j k r).
Qed.

(** [str.strip] is idempotent. *)
Lemma rstrip_keeps_head (c : ascii) (s : string) :
  is_space c = false -> rstrip (String c s) = String c (rstrip s).
Proof.
  intros H. cbn. rewrite H. now destruct (rstrip s).
Qed.

Lemma rstrip_idempotent (s : string) : rstrip (rstrip s) = rstrip s.
Proof.
  induction s as [| c t IH]; [reflexivity |].
  cbn. destruct (rstrip t) as [| d u] eqn:E.
  - destruct (is_space c) eqn:Hc; [reflexivity |]. cbn. now rewrite Hc.
  - cbn [rstrip]. cbn [rstrip] in IH. rewrite IH. reflexivity.
Qed.

Lemma lstrip_head (s : string) :
  lstrip s = EmptyString \/
  exists c t, lstrip s = String c t /\ is_space c = false.
Proof.
  induction s as [| c t IH]; [now left |].
  cbn. destruct (is_space c) eqn:Hc; [exact IH |]. right. eauto.
Qed.

Lemma strip_idempotent (s : string) : strip (strip s) = strip s.
Proof.
  unfold strip. destruct (lstrip_head s) as [E | (c & t & E & Hc)]; rewrite E.
  - reflexivity.
  - rewrite (rstrip_keeps_head c t Hc). cbn [lstrip]. rewrite Hc.
    rewrite <- (rstrip_keeps_head c t Hc). apply rstrip_idempotent.
Qed.

Lemma strip_columns_idempotent (df : DataFrame) :
  strip_columns (strip_columns df) = strip_columns df.
Proof.
  unfold strip_columns. cbn. f_equal. rewrite map_map.
  apply map_ext. intros s. apply strip_idempotent.
Qed.

Lemma index_of_nth_error (name : string) (cols : list string) (n : nat) :
  index_of name cols = Some n -> nth_error cols n = Some name.
Proof.
  revert n. induction cols as [| c cs IH]; intros n; cbn; [discriminate |].
  destruct (String.eqb_spec c name) as [-> | Hne].
  - intros E. now injection E as <-.
  - destruct (index_of name cs) as [m |]; cbn; [| discriminate].
    intros E. injection E as <-. cbn. now apply IH.
Qed.

Lemma index_of_inj (a b : string) (cols : list string) (n : nat) :
  index_of a cols = Some n -> index_of b cols = Some n -> a = b.
Proof.
  intros Ha Hb. apply index_of_nth_error in Ha, Hb. congruence.
Qed.

Lemma cell_at_coerced_other (env : Env) (i j k n : nat) (r : row) :
  n <> i -> n <> j -> n <> k ->
  cell_at n (coerced env i j k r) = cell_at n r.
Proof.
  intros Hi Hj Hk. unfold coerced. cbv zeta.
  now rewrite !cell_at_set_at_other by congruence.
Qed.

Lemma drop_unmeasured_fixed (df : DataFrame) :
  validated ELEVATION df -> drop_unmeasured df = df.
Proof.
  intros (i & j & k & _ & _ & Ek & Hall). unfold drop_unmeasured, select.
  rewrite Ek. destruct df as [cols rs]. cbn in *. f_equal.
  rewrite Forall_forall in Hall.
  rewrite (filter_all (fun r => notna (cell_at k r))).
  - apply filter_all. intros r Hr. destruct (Hall r Hr) as (_ & _ & C).
    now destruct (cell_at k r).
  - intros r Hr. destruct (Hall r Hr) as (_ & _ & C).
    now destruct (cell_at k r).
Qed.

Lemma filter_toc1_fixed (env : Env) (df : DataFrame) (n : nat) :
  index_of "Name" (columns df) = Some n ->
  Forall (fun r => str_contains "TOC1" (cell_at n r) = true) (rows df) \/
  Forall (fun r => contains "TOC1" (astype_str env (cell_at n r)) = false)
         (rows df) ->
  filter_toc1 env df = df.
Proof.
  intros En H. unfold filter_toc1, select. rewrite En.
  destruct (existsb _ (rows df)) eqn:Ex; [| reflexivity].
  destruct H as [H | H].
  - destruct df as [cols rs]. cbn in *. f_equal. apply filter_all.
    now apply Forall_forall.
  - apply existsb_exists in Ex. destruct Ex as (r & Hr & Hc).
    rewrite Forall_forall in H. specialize (H r Hr). congruence.
Qed.

Lemma filter_toc1_uniform (env : Env) (df : DataFrame) (n : nat) :
  index_of "Name" (columns df) = Some n ->
  Forall (fun r => str_contains "TOC1" (cell_at n r) = true)
         (rows (filter_toc1 env df)) \/
  Forall (fun r => contains "TOC1" (astype_str env (cell_at n r)) = false)
         (rows (filter_toc1 env df)).
Proof.
  intros En. unfold filter_toc1. rewrite En.
  destruct (existsb _ (rows df)) eqn:Ex.
  - left. cbn. apply Forall_forall. intros r Hr. now apply filter_In in Hr.
  - right. apply Forall_forall. intros r Hr.
    destruct (contains "TOC1" (astype_str env (cell_at n r))) eqn:Hc;
      [| reflexivity].
    assert (existsb (fun r => contains "TOC1" (astype_str env (cell_at n r)))
                    (rows df) = true)
      by (apply existsb_exists; eauto).
    congruence.
Qed.

Lemma drop_unmeasured_rows_incl (df : DataFrame) :
  incl (rows (drop_unmeasured df)) (rows df).
Proof.
  unfold drop_unmeasured. destruct (index_of ELEVATION (columns df));
    [| apply incl_refl].
  cbn. eapply incl_tran; apply incl_filter.
Qed.

Lemma load_elevation_unfold (env : Env) (df0 : DataFrame) :
  load_elevation env df0
  = coerce_and_drop env ELEVATION
      (drop_unmeasured (filter_toc1 env (strip_columns df0))).
Proof. reflexivity. Qed.

Lemma load_nitrate_unfold (env : Env) (df0 : DataFrame) :
  load_nitrate env df0 = coerce_and_drop env NITRATE (strip_columns df0).
Proof. reflexivity. Qed.

(** The table returned by the common tail of the loaders. *)
Lemma coerce_and_drop_result (env : Env) (value : string) (df df' : DataFrame) :
  coerce_and_drop env value df = Ok df' ->
  exists i j k,
    index_of "Easting" (columns df) = Some i /\
    index_of "Northing" (columns df) = Some j /\
    index_of value (columns df) = Some k /\
    columns df' = columns df /\
    rows df' = filter (complete i j k) (map (coerced env i j k) (rows df)).
Proof.
  intros E. assert (H := coerce_and_drop_cases env value df).
  destruct (index_of "Easting" (columns df)) as [i |]; [| congruence].
  destruct (index_of "Northing" (columns df)) as [j |]; [| congruence].
  destruct (index_of value (columns df)) as [k |]; [| congruence].
  rewrite H in E. injection E as <-. exists i, j, k. auto.
Qed.



(** X7.  A row that already has a number in each of the three columns is
    never dropped or changed by loading: in the nitrate script every such
    row of the input is in the result; in the elevation script every such
    row that passes the tag filter is. *)
Theorem numeric_rows_survive_loading (env : Env) (df0 df : DataFrame)
  (i j k : nat) (r : row) :
  index_of "Easting" (map strip (columns df0)) = Some i ->
  index_of "Northing" (map strip (columns df0)) = Some j ->
  is_num (cell_at i r) = true -> is_num (cell_at j r) = true ->
  is_num (cell_at k r) = true ->
  (index_of ELEVATION (map strip (columns df0)) = Some k ->
   load_elevation env df0 = Ok df ->
   In r (rows (filter_toc1 env (strip_columns df0))) -> In r (rows df)) /\
  (index_of NITRATE (map strip (columns df0)) = Some k ->
   load_nitrate env df0 = Ok df ->
   In r (rows df0) -> In r (rows df)).
Proof.
  intros Ei Ej Hi Hj Hk.
  destruct (coerced_numeric env i j k r Hi Hj Hk) as (Hfix & Hcomplete).
  split; intros Ek E Hin.
  - rewrite load_elevation_unfold in E.
    destruct (coerce_and_drop_result _ _ _ _ E)
      as (i' & j' & k' & Ei' & Ej' & Ek' & _ & Hr).
    rewrite drop_unmeasured_columns, filter_toc1_columns in Ei', Ej', Ek'.
    cbn in Ei', Ej', Ek'.
    assert (i' = i) by congruence. assert (j' = j) by congruence.
    assert (k' = k) by congruence. subst i' j' k'.
    rewrite Hr. apply filter_In. split; [| exact Hcomplete].
    apply in_map_iff. exists r. split; [exact Hfix |].
    unfold drop_unmeasured.
    rewrite filter_toc1_columns. cbn [columns strip_columns]. rewrite Ek.
    cbn. apply filter_In. split.
    + apply filter_In. split; [exact Hin |]. now destruct (cell_at k r).
    + now destruct (cell_at k r).
  - rewrite load_nitrate_unfold in E.
    destruct (coerce_and_drop_result _ _ _ _ E)
      as (i' & j' & k' & Ei' & Ej' & Ek' & _ & Hr).
    cbn in Ei', Ej', Ek'.
    assert (i' = i) by congruence. assert (j' = j) by congruence.
    assert (k' = k) by congruence. subst i' j' k'.
    rewrite Hr. apply filter_In. split; [| exact Hcomplete].
    apply in_map_iff. exists r. split; [exact Hfix | exact Hin].
Qed.

Lemma numeric_rows_survive_loading_witness :
  In [CStr "TOC1-MW01"; CNum 0; CNum 0; CNum 10] (rows tagged_loaded).
Proof.
  assert (E : load_elevation (example_env 0) tagged_samples = Ok tagged_loaded)
    by (vm_compute; reflexivity).
  apply (proj1 (numeric_rows_survive_loading (example_env 0) tagged_samples
                  tagged_loaded 1 2 3 [CStr "TOC1-MW01"; CNum 0; CNum 0; CNum 10]
                  eq_refl eq_refl eq_refl eq_refl eq_refl) eq_refl E).
  vm_compute. now left.
Defined.

(** X8.  Loading is idempotent: a table returned by a loader is returned
    unchanged when it is loaded again. *)
Theorem loading_is_idempotent (env : Env) (df0 df : DataFrame) :
  (load_elevation env df0 = Ok df -> load_elevation env df = Ok df) /\
  (load_nitrate env df0 = Ok df -> load_nitrate env df = Ok df).
Proof.
  split; intros E.
  - assert (Hv : validated ELEVATION df) by (eapply coerce_and_drop_validated, E).
    rewrite load_elevation_unfold in E.
    destruct (coerce_and_drop_result _ _ _ _ E)
      as (i & j & k & Ei & Ej & Ek & Hc & Hr).
    rewrite drop_unmeasured_columns, filter_toc1_columns in Ei, Ej, Ek, Hc.
    cbn [columns strip_columns] in Ei, Ej, Ek, Hc.
    assert (Hs : strip_columns df = df).
    { destruct df as [cols rs]. unfold strip_columns. cbn in *. f_equal.
      rewrite Hc, map_map. apply map_ext. intros s. apply strip_idempotent. }
    assert (Hf : filter_toc1 env df = df).
    { destruct (index_of "Name" (columns df)) as [n |] eqn:En.
      2: { unfold filter_toc1. now rewrite En. }
      apply (filter_toc1_fixed env df n En).
      rewrite Hc in En.
      assert (Hni : n <> i).
      { intros ->. discriminate (index_of_inj _ _ _ _ En Ei). }
      assert (Hnj : n <> j).
      { intros ->. discriminate (index_of_inj _ _ _ _ En Ej). }
      assert (Hnk : n <> k).
      { intros ->. discriminate (index_of_inj _ _ _ _ En Ek). }
      assert (Hin : forall r, In r (rows df) ->
                 exists r0, In r0 (rows (filter_toc1 env (strip_columns df0))) /\
                            cell_at n r = cell_at n r0).
      { intros r Hr'. rewrite Hr in Hr'. apply filter_In in Hr'.
        destruct Hr' as (Hr' & _). apply in_map_iff in Hr'.
        destruct Hr' as (r0 & <- & Hr0).
        exists r0. split; [now apply drop_unmeasured_rows_incl |].
        now apply cell_at_coerced_other. }
      destruct (filter_toc1_uniform env (strip_columns df0) n En) as [H | H];
        [left | right]; rewrite Forall_forall in H; apply Forall_forall;
        intros r Hr'; destruct (Hin r Hr') as (r0 & Hr0 & ->); now apply H. }
    rewrite load_elevation_unfold, Hs, Hf, (drop_unmeasured_fixed df Hv).
    now apply coerce_and_drop_validated_fixed.
  - assert (Hv : validated NITRATE df) by (eapply coerce_and_drop_validated, E).
    rewrite load_nitrate_unfold in E.
    destruct (coerce_and_drop_result _ _ _ _ E)
      as (i & j & k & _ & _ & _ & Hc & _).
    cbn [columns strip_columns] in Hc.
    assert (Hs : strip_columns df = df).
    { destruct df as [cols rs]. unfold strip_columns. cbn in *. f_equal.
      rewrite Hc, map_map. apply map_ext. intros s. apply strip_idempotent. }
    rewrite load_nitrate_unfold, Hs.
    now apply coerce_and_drop_validated_fixed.
Qed.

Lemma loading_is_idempotent_witness :
  load_elevation (example_env 0) tagged_loaded = Ok tagged_loaded.
Proof.
  apply (proj1 (loading_is_idempotent (example_env 0) tagged_samples tagged_loaded)).
  vm_compute. reflexivity.
Defined.

(** ** More on the runs: empty tables, the rectangle, the arrows, the picture *)

(** The grid of a validated, non-empty table, written out. *)
Lemma build_grid_explicit (value : string) (df : DataFrame) :
  validated value df -> rows df <> [] ->
  exists es ns e_min e_max n_min n_max,
    series "Easting" df = Ok es /\ series "Northing" df = Ok ns /\
    series_min es = fin e_min /\ series_max es = fin e_max /\
    series_min ns = fin n_min /\ series_max ns = fin n_max /\
    minimum_of e_min (numbers es) /\ maximum_of e_max (numbers es) /\
    minimum_of n_min (numbers ns) /\ maximum_of n_max (numbers ns) /\
    e_min <= e_max /\ n_min <= n_max /\
    build_grid df = Ok (mgrid (fin e_min) (fin e_max) (fin n_min) (fin n_max)).
Proof.
  intros Hv Hne.
  destruct (validated_series _ _ Hv)
    as (es & ns & vs & Ee & En & _ & He & Hn & _ & Le & Ln & _).
  assert (Hes : es <> []).
  { intros ->. destruct (rows df); [congruence | discriminate]. }
  assert (Hns : ns <> []).
  { intros ->. destruct (rows df); [congruence | discriminate]. }
  destruct (series_extremes es He Hes) as (e0 & e1 & A1 & A2 & A3 & A4 & A5).
  destruct (series_extremes ns Hn Hns) as (n0 & n1 & B1 & B2 & B3 & B4 & B5).
  exists es, ns, e0, e1, n0, n1.
  repeat (split; [assumption |]).
  unfold build_grid. rewrite Ee, En. cbn. now rewrite A1, A2, B1, B2.
Qed.

Lemma validated_empty_series (value : string) (df : DataFrame) :
  validated value df -> rows df = [] ->
  series "Easting" df = Ok [] /\ series "Northing" df = Ok [] /\
  series value df = Ok [].
Proof.
  intros (i & j & k & Ei & Ej & Ek & _) Hr. unfold series.
  now rewrite Ei, Ej, Ek, Hr.
Qed.

(** X9.  A validated table without rows does not stop a script at once: the
    grid corners are NaN, the two transformations are called on
    [(NaN, NaN)] and the bounds file is written from their results.  The
    elevation script then always ends with an exception and draws nothing;
    the nitrate script writes its bounds file in the same way. *)
Theorem empty_table_writes_nan_bounds (env : Env) (df : DataFrame) :
  rows df = [] ->
  let corner := pyproj_transform env SRC_CRS DST_CRS true NaN NaN in
  let bounds path :=
    [Transform SRC_CRS DST_CRS true NaN NaN;
     Transform SRC_CRS DST_CRS true NaN NaN;
     JsonDump path [("min_lat", snd corner); ("min_lon", fst corner);
                    ("max_lat", snd corner); ("max_lon", fst corner)]%string] in
  (validated ELEVATION df ->
   trace (contour_elevation env df) = bounds "output_files/image_bounds.json"%string /\
   exists e, outcome (contour_elevation env df) = Raise e) /\
  (validated NITRATE df ->
   exists rest,
     trace (contour_nitrate env df)
     = bounds "output_files/nitrate_bounds.json"%string ++ rest).
Proof.
  intros Hr corner bounds.
  assert (Hb : forall path,
             bounds_events env path (mgrid NaN NaN NaN NaN) = bounds path).
  { intros path. unfold bounds_events, bounds, corner.
    assert (E1 : amin (fst (mgrid NaN NaN NaN NaN)) = NaN)
      by (vm_compute; reflexivity).
    assert (E2 : amin (snd (mgrid NaN NaN NaN NaN)) = NaN)
      by (vm_compute; reflexivity).
    assert (E3 : amax (fst (mgrid NaN NaN NaN NaN)) = NaN)
      by (vm_compute; reflexivity).
    assert (E4 : amax (snd (mgrid NaN NaN NaN NaN)) = NaN)
      by (vm_compute; reflexivity).
    cbv zeta. now rewrite E1, E2, E3, E4. }
  split; intros Hv.
  - destruct (validated_empty_series _ _ Hv Hr) as (Ee & En & Ev).
    assert (Eg : build_grid df = Ok (mgrid NaN NaN NaN NaN)).
    { unfold build_grid. now rewrite Ee, En. }
    rewrite (contour_elevation_run env df _ Eg). cbv zeta. rewrite Hb.
    assert (Er : elevation_range df = Ok (NaN, NaN)).
    { unfold elevation_range. now rewrite Ev. }
    rewrite Er. cbn [fst snd].
    assert (El : contour_levels Elevation NaN NaN
                 = Raise (ValueError "arange: cannot compute length"))
      by reflexivity.
    rewrite El.
    destruct (interpolate env ELEVATION df (mgrid NaN NaN NaN NaN));
      (split; [reflexivity | eexists; reflexivity]).
  - destruct (validated_empty_series _ _ Hv Hr) as (Ee & En & Ev).
    assert (Eg : build_grid df = Ok (mgrid NaN NaN NaN NaN)).
    { unfold build_grid. now rewrite Ee, En. }
    rewrite (contour_nitrate_run env df _ Eg). cbv zeta. rewrite Hb.
    destruct (interpolate env NITRATE df (mgrid NaN NaN NaN NaN)) as [g |].
    + destruct (contour_levels Nitrate (nanmin g) (nanmax g)).
      * eexists. reflexivity.
      * exists []. unfold trace. cbn [fst]. now rewrite app_nil_r.
    + exists []. unfold trace. cbn [fst]. now rewrite app_nil_r.
Qed.

Lemma empty_table_writes_nan_bounds_witness :
  exists e, outcome (contour_elevation (example_env 0) empty_samples) = Raise e.
Proof.
  assert (Hv : validated ELEVATION empty_samples).
  { exists 0%nat, 1%nat, 2%nat. repeat split. constructor. }
  destruct (empty_table_writes_nan_bounds (example_env 0) empty_samples eq_refl)
    as (H & _).
  exact (proj2 (H Hv)).
Defined.







Lemma every_from_map {A B} (f : A -> B) (step wait : nat) (l : list A) :
  every_from step wait (map f l) = map f (every_from step wait l).
Proof.
  revert wait. induction l as [| x l IH]; intros wait; cbn; [reflexivity |].
  destruct wait; cbn; now rewrite IH.
Qed.

Lemma stride_map {A B} (f : A -> B) (step : nat) (l : list A) :
  stride step (map f l) = map f (stride step l).
Proof. apply every_from_map. Qed.

Lemma stride2_map2 {A B} (g : A -> A -> B) (step : nat) (l1 l2 : list A) :
  stride2 step (map (fun i => map (g i) l2) l1)
  = map (fun i => map (g i) (stride step l2)) (stride step l1).
Proof.
  unfold stride2. rewrite stride_map, map_map. apply map_ext. intros i.
  apply stride_map.
Qed.

Lemma stride_seq_100 :
  stride quiver_step (seq 0 resolution)
  = map (fun k => (quiver_step * k)%nat) (seq 0 10).
Proof. reflexivity. Qed.

Lemma stride2_tabulate (f : nat -> nat -> Q) :
  stride2 quiver_step (tabulate resolution f)
  = map (fun i => map (fun j => fin (f (quiver_step * i) (quiver_step * j))%nat)
                      (seq 0 10))
        (seq 0 10).
Proof.
  unfold tabulate.
  etransitivity.
  { exact (stride2_map2 (fun i j => fin (f i j)) quiver_step
             (seq 0 resolution) (seq 0 resolution)). }
  generalize stride_seq_100. generalize (stride quiver_step (seq 0 resolution)).
  intros l ->. rewrite map_map. apply map_ext. intros i. now rewrite map_map.
Qed.

Lemma stride2_tabulate_lookup (f : nat -> nat -> Q) (i j : nat) :
  (i < 10)%nat -> (j < 10)%nat ->
  lookup (stride2 quiver_step (tabulate resolution f)) i j
  = fin (f (quiver_step * i) (quiver_step * j))%nat.
Proof.
  intros Hi Hj. rewrite stride2_tabulate. unfold lookup.
  rewrite (nth_map_seq _ 0 10 i) by assumption.
  now rewrite (nth_map_seq _ 0 10 j).
Qed.

Lemma stride2_tabulate_length (f : nat -> nat -> Q) :
  List.length (stride2 quiver_step (tabulate resolution f)) = 10%nat.
Proof. rewrite stride2_tabulate. now rewrite length_map, length_seq. Qed.

Lemma stride2_tabulate_rows (f : nat -> nat -> Q) :
  Forall (fun r => List.length r = 10%nat)
         (stride2 quiver_step (tabulate resolution f)).
Proof.
  rewrite stride2_tabulate. apply Forall_forall. intros r Hr.
  apply in_map_iff in Hr. destruct Hr as (i & <- & _).
  now rewrite length_map, length_seq.
Qed.

(** X12.  The arrows are drawn at every tenth grid point in both
    directions: there are 10 x 10 of them, arrow [(i, j)] sits on grid point
    [(10 i, 10 j)], and since the last one is on index 90 no arrow sits on
    the maximum edge of a grid with a positive span. *)
Theorem arrows_on_every_tenth_grid_point (value : string) (df : DataFrame) :
  validated value df -> rows df <> [] ->
  exists grid,
    build_grid df = Ok grid /\
    List.length (fst (quiver_positions grid)) = 10%nat /\
    List.length (snd (quiver_positions grid)) = 10%nat /\
    Forall (fun r => List.length r = 10%nat) (fst (quiver_positions grid)) /\
    Forall (fun r => List.length r = 10%nat) (snd (quiver_positions grid)) /\
    (forall i j, (i < 10)%nat -> (j < 10)%nat ->
       lookup (fst (quiver_positions grid)) i j
       = lookup (fst grid) (10 * i) (10 * j) /\
       lookup (snd (quiver_positions grid)) i j
       = lookup (snd grid) (10 * i) (10 * j)) /\
    (forall i j x, (i < 10)%nat -> (j < 10)%nat ->
       lookup (fst (quiver_positions grid)) i j = fin x ->
       flt (amin (fst grid)) (amax (fst grid)) -> flt (fin x) (amax (fst grid))).
Proof.
  intros Hv Hne.
  destruct (build_grid_explicit value df Hv Hne)
    as (es & ns & e0 & e1 & n0 & n1 & _ & _ & _ & _ & _ & _
        & _ & _ & _ & _ & He & Hn & Eg).
  exists (mgrid (fin e0) (fin e1) (fin n0) (fin n1)).
  split; [exact Eg |].
  destruct (mgrid_spans e0 e1 n0 n1 He Hn) as [_ _ _ _ _ (S1 & _) (S3 & _)].
  rewrite mgrid_finite in S1, S3 |- *. unfold quiver_positions.
  cbn [fst snd] in S1, S3 |- *.
  split; [apply stride2_tabulate_length |].
  split; [apply stride2_tabulate_length |].
  split; [apply stride2_tabulate_rows |].
  split; [apply stride2_tabulate_rows |].
  split.
  { intros i j Hi Hj.
    rewrite !stride2_tabulate_lookup by assumption.
    rewrite !tabulate_lookup by (unfold resolution, quiver_step; lia).
    split; reflexivity. }
  intros i j x Hi Hj E Hspan.
  rewrite stride2_tabulate_lookup in E by assumption.
  injection E as <-.
  destruct (amin (tabulate resolution (fun i _ => axis_value e0 e1 i)))
    as [lo |]; [| contradiction].
  destruct (amax (tabulate resolution (fun i _ => axis_value e0 e1 i)))
    as [hi |]; [| contradiction].
  cbn in S1, S3, Hspan.
  change (axis_value e0 e1 (quiver_step * i) < hi).
  assert (Hlt : e0 < e1) by lra.
  unfold axis_value. change (inject_Z (Z.of_nat (resolution - 1))) with 99.
  assert (H0 : 0 <= inject_Z (Z.of_nat (quiver_step * i))).
  { change 0 with (inject_Z 0). rewrite <- Zle_Qle. lia. }
  assert (H1 : inject_Z (Z.of_nat (quiver_step * i)) <= 90).
  { change 90 with (inject_Z 90). rewrite <- Zle_Qle. unfold quiver_step. lia. }
  set (t := inject_Z (Z.of_nat (quiver_step * i))) in *.
  assert (E : t * ((e1 - e0) / 99) == t * (1 # 99) * (e1 - e0)) by field.
  rewrite E.
  assert (Hs : t * (1 # 99) <= 10 # 11) by lra.
  set (s := t * (1 # 99)) in *.
  assert (0 <= ((10 # 11) - s) * (e1 - e0)).
  { apply Qmult_le_0_compat; lra. }
  lra.
Qed.

Lemma arrows_on_every_tenth_grid_point_witness :
  exists grid,
    build_grid five_samples = Ok grid /\
    lookup (fst (quiver_positions grid)) 9 9 = lookup (fst grid) 90 90.
Proof.
  assert (Hv : validated ELEVATION five_samples)
    by (apply five_samples_validated; now left).
  assert (Hne : rows five_samples <> []) by discriminate.
  destruct (arrows_on_every_tenth_grid_point ELEVATION five_samples Hv Hne)
    as (grid & Eg & _ & _ & _ & _ & H & _).
  exists grid. split; [exact Eg |].
  assert (H9 : (9 < 10)%nat) by lia.
  exact (proj1 (H 9%nat 9%nat H9 H9)).
Defined.

(** ** The picture and the two bounds files *)

Lemma main_elevation_shapes (env : Env) (df0 : DataFrame) :
  (exists e, main_elevation env df0 = ([], Raise e)) \/
  (exists grid e,
     main_elevation env df0
     = (bounds_events env "output_files/image_bounds.json" grid, Raise e)) \/
  (exists grid levels,
     main_elevation env df0
     = (bounds_events env "output_files/image_bounds.json" grid
        ++ render_events levels, Ok tt)).
Proof.
  destruct (load_elevation env df0) as [df | e] eqn:El.
  - rewrite (main_elevation_loaded env df0 df El).
    destruct (build_grid df) as [grid | e] eqn:Eg.
    + rewrite (contour_elevation_run env df grid Eg). cbv zeta.
      destruct (interpolate env ELEVATION df grid) as [g | e];
        [| right; left; now exists grid, e].
      destruct (elevation_range df) as [range | e];
        [| right; left; now exists grid, e].
      destruct (contour_levels Elevation (fst range) (snd range))
        as [levels | e]; [| right; left; now exists grid, e].
      right; right. now exists grid, levels.
    + left. exists e. unfold contour_elevation. now rewrite Eg.
  - left. exists e. unfold main_elevation. now rewrite El.
Qed.

Lemma main_nitrate_shapes (env : Env) (df0 : DataFrame) :
  (exists e, main_nitrate env df0 = ([], Raise e)) \/
  (exists grid e,
     main_nitrate env df0
     = (bounds_events env "output_files/nitrate_bounds.json" grid, Raise e)) \/
  (exists grid levels,
     main_nitrate env df0
     = (bounds_events env "output_files/nitrate_bounds.json" grid
        ++ render_events levels, Ok tt)).
Proof.
  destruct (load_nitrate env df0) as [df | e] eqn:El.
  - rewrite (main_nitrate_loaded env df0 df El).
    destruct (build_grid df) as [grid | e] eqn:Eg.
    + rewrite (contour_nitrate_run env df grid Eg). cbv zeta.
      destruct (interpolate env NITRATE df grid) as [g | e];
        [| right; left; now exists grid, e].
      destruct (contour_levels Nitrate (nanmin g) (nanmax g))
        as [levels | e]; [| right; left; now exists grid, e].
      right; right. now exists grid, levels.
    + left. exists e. unfold contour_nitrate. now rewrite Eg.
  - left. exists e. unfold main_nitrate. now rewrite El.
Qed.

Lemma in_bounds_events (env : Env) (path : string) (grid : array * array)
  (e : event) :
  In e (bounds_events env path grid) ->
  (exists x y, e = Transform SRC_CRS DST_CRS true x y) \/
  (exists obj, e = JsonDump path obj).
Proof.
  unfold bounds_events. cbv zeta. intros [<- | [<- | [<- | []]]].
  - left. now do 2 eexists.
  - left. now do 2 eexists.
  - right. now eexists.
Qed.

Lemma in_render_events (levels : list Q) (e : event) :
  In e (render_events levels) ->
  e = Contourf levels \/ e = Savefig Maps.image_path.
Proof. intros [<- | [<- | []]]; [now left | now right]. Qed.

(** The events of a run that follows one of the three shapes. *)
Lemma shaped_run_files (env : Env) (path : string) (m : M unit) :
  (exists e, m = ([], Raise e)) \/
  (exists grid e, m = (bounds_events env path grid, Raise e)) \/
  (exists grid levels,
     m = (bounds_events env path grid ++ render_events levels, Ok tt)) ->
  (outcome m = Ok tt <-> In (Savefig Maps.image_path) (trace m)) /\
  (outcome m = Ok tt ->
   exists before, trace m = before ++ [Savefig Maps.image_path]) /\
  (forall p, In (Savefig p) (trace m) -> p = Maps.image_path) /\
  (forall p obj, In (JsonDump p obj) (trace m) -> p = path).
Proof.
  intros [(e & ->) | [(grid & e & ->) | (grid & levels & ->)]];
    unfold outcome, trace; cbn [fst snd].
  - split; [split; [discriminate | intros []] |].
    split; [discriminate |]. split; intros ? ; [intros [] | intros ? []].
  - split.
    { split; [discriminate |]. intros H.
      destruct (in_bounds_events _ _ _ _ H) as [(x & y & E) | (obj & E)];
        discriminate. }
    split; [discriminate |]. split.
    + intros p H.
      destruct (in_bounds_events _ _ _ _ H) as [(x & y & E) | (obj & E)];
        discriminate.
    + intros p obj H.
      destruct (in_bounds_events _ _ _ _ H) as [(x & y & E) | (obj' & E)];
        [discriminate | now injection E].
  - split.
    { split; [| reflexivity]. intros _. apply in_or_app. right. right. now left. }
    split.
    { intros _. exists (bounds_events env path grid ++ [Contourf levels]).
      now rewrite <- app_assoc. }
    split.
    + intros p H. apply in_app_or in H. destruct H as [H | H].
      * destruct (in_bounds_events _ _ _ _ H) as [(x & y & E) | (obj & E)];
          discriminate.
      * destruct (in_render_events _ _ H) as [E | E];
          [discriminate | now injection E].
    + intros p obj H. apply in_app_or in H. destruct H as [H | H].
      * destruct (in_bounds_events _ _ _ _ H) as [(x & y & E) | (obj' & E)];
          [discriminate | now injection E].
      * destruct (in_render_events _ _ H) as [E | E]; discriminate.
Qed.

(** X13.  Both scripts save their picture exactly when the run completes,
    as the last action, and to the same file, which is the file the map
    script lays over the map; the bounds go to a file of the script's own.
    So the picture of the nitrate run replaces that of the elevation run. *)
Theorem picture_saved_exactly_when_the_run_completes
  (env : Env) (df0 : DataFrame) :
  let elevation := main_elevation env df0 in
  let nitrate := main_nitrate env df0 in
  (outcome elevation = Ok tt <-> In (Savefig Maps.image_path) (trace elevation)) /\
  (outcome nitrate = Ok tt <-> In (Savefig Maps.image_path) (trace nitrate)) /\
  (outcome elevation = Ok tt ->
   exists before, trace elevation = before ++ [Savefig Maps.image_path]) /\
  (outcome nitrate = Ok tt ->
   exists before, trace nitrate = before ++ [Savefig Maps.image_path]) /\
  (forall p, In (Savefig p) (trace elevation ++ trace nitrate) ->
             p = Maps.image_path) /\
  (forall p obj, In (JsonDump p obj) (trace elevation) ->
                 p = "output_files/image_bounds.json"%string) /\
  (forall p obj, In (JsonDump p obj) (trace nitrate) ->
                 p = "output_files/nitrate_bounds.json"%string).
Proof.
  intros elevation nitrate.
  destruct (shaped_run_files env _ elevation (main_elevation_shapes env df0))
    as (E1 & E2 & E3 & E4).
  destruct (shaped_run_files env _ nitrate (main_nitrate_shapes env df0))
    as (N1 & N2 & N3 & N4).
  split; [exact E1 |]. split; [exact N1 |].
  split; [exact E2 |]. split; [exact N2 |].
  split; [| split; [exact E4 | exact N4]].
  intros p H. apply in_app_or in H. destruct H; [now apply E3 | now apply N3].
Qed.

(** ** The launcher *)

Section LauncherFacts.

Import Launcher.

Ltac run_step :=
  cbv beta iota zeta delta
    [run_groundwater_report run_nitrate_report try_finally try_except ui_then
     ui_bind subprocess_run config_text_fg config_text act handlers fst snd
     fg text actions_of raised status_after].

Ltac run_report w :=
  run_step;
  repeat match goal with
         | |- context [run_script w ?s] =>
             let E := fresh "E" in
             destruct (run_script w s) eqn:E; run_step
         | |- context [html_exists w] =>
             let E := fresh "E" in
             destruct (html_exists w) eqn:E; run_step
         end.

(** A run only adds to the log of actions. *)
Lemma report_log_extends (w : World) (s : Label) (acts : list action) :
  snd (fst (run_groundwater_report w (s, acts)))
  = acts ++ actions_of (run_groundwater_report w) s /\
  snd (fst (run_nitrate_report w (s, acts)))
  = acts ++ actions_of (run_nitrate_report w) s.
Proof.
  split; run_report w; cbn [app]; rewrite <- ?app_assoc; reflexivity.
Qed.

(** X14.  Whatever the scripts do, also when an exception that the launcher
    does not handle passes through, the status bar shows "Ready" in the
    normal text colour when a report function returns, and the actions logged
    before the run are kept. *)
Theorem status_bar_is_reset_after_every_run
  (w : World) (s : Label) (acts : list action) :
  let ready := {| text := "Ready"; fg := TEXT_COLOR |} in
  fst (fst (run_groundwater_report w (s, acts))) = ready /\
  fst (fst (run_nitrate_report w (s, acts))) = ready /\
  (exists new, snd (fst (run_groundwater_report w (s, acts))) = acts ++ new) /\
  (exists new, snd (fst (run_nitrate_report w (s, acts))) = acts ++ new).
Proof.
  intros ready.
  split; [run_report w; reflexivity |].
  split; [run_report w; reflexivity |].
  destruct (report_log_extends w s acts) as (E1 & E2).
  split; eexists; eassumption.
Qed.

Lemma groundwater_actions (w : World) (s : Label) :
  actions_of (run_groundwater_report w) s
  = report_actions w GENERATE_IMAGE_SCRIPT.
Proof.
  unfold report_actions. run_report w; cbn [app].
  all: try reflexivity.
  all: unfold GENERATE_IMAGE_SCRIPT, GENERATE_MAPS_SCRIPT in *; congruence.
Qed.

Lemma nitrate_actions (w : World) (s : Label) :
  actions_of (run_nitrate_report w) s
  = report_actions w GENERATE_NITRATE_IMAGE_SCRIPT.
Proof.
  unfold report_actions. run_report w; cbn [app].
  all: try reflexivity.
  all: unfold GENERATE_NITRATE_IMAGE_SCRIPT, GENERATE_MAPS_SCRIPT in *; congruence.
Qed.

Lemma groundwater_raised (w : World) (s : Label) :
  raised (run_groundwater_report w) s = report_raised w GENERATE_IMAGE_SCRIPT.
Proof.
  unfold report_raised. run_report w.
  all: try reflexivity.
  all: unfold GENERATE_IMAGE_SCRIPT, GENERATE_MAPS_SCRIPT in *; congruence.
Qed.

Lemma nitrate_raised (w : World) (s : Label) :
  raised (run_nitrate_report w) s
  = report_raised w GENERATE_NITRATE_IMAGE_SCRIPT.
Proof.
  unfold report_raised. run_report w.
  all: try reflexivity.
  all: unfold GENERATE_NITRATE_IMAGE_SCRIPT, GENERATE_MAPS_SCRIPT in *; congruence.
Qed.


Ltac in_cases H :=
  cbn [In] in H;
  repeat (destruct H as [H | H]; [try discriminate H |]);
  try contradiction.

Lemma report_actions_order (w : World) (img : string) :
  img <> GENERATE_MAPS_SCRIPT ->
  (exists rest,
     report_actions w img = UpdateIdletasks :: SubprocessRun img :: rest) /\
  (In (SubprocessRun GENERATE_MAPS_SCRIPT) (report_actions w img)
   <-> run_script w img = Exited0) /\
  (forall script, In (SubprocessRun script) (report_actions w img) ->
                  script = img \/ script = GENERATE_MAPS_SCRIPT) /\
  (forall url, In (OpenNewTab url) (report_actions w img) <->
     run_script w img = Exited0 /\
     run_script w GENERATE_MAPS_SCRIPT = Exited0 /\
     html_exists w = true /\
     url = ("file://" ++ html_realpath w)%string).
Proof.
  intros Hne. unfold report_actions.
  split; [eexists; reflexivity |].
  destruct (run_script w img) eqn:E1;
    [destruct (run_script w GENERATE_MAPS_SCRIPT) eqn:E2;
       [destruct (html_exists w) eqn:E3 | | |] | | |];
    cbn [app].
  all: split;
    [split; intros H;
       [first [reflexivity
              | exfalso; in_cases H; injection H as H; exact (Hne H)]
       | first [discriminate H | cbn [In]; tauto]] |].
  all: split;
    [intros script H; in_cases H; injection H as <-; tauto |].
  all: intros url; split;
    [intros H; in_cases H; injection H as <-; repeat split; reflexivity
    | intros (H1 & H2 & H3 & ->); first [congruence | cbn [In]; tauto]].
Qed.

(** X15.  Both reports start with the image script; the map script runs
    exactly when the image script has exited with status 0, no other script
    is run, and the browser is opened exactly when both scripts have exited
    with status 0 and the map file exists, on the real path of that file. *)
Theorem map_script_runs_only_after_the_image_script (w : World) (s : Label) :
  let facts (img : string) (acts : list action) :=
    (exists rest, acts = UpdateIdletasks :: SubprocessRun img :: rest) /\
    (In (SubprocessRun GENERATE_MAPS_SCRIPT) acts
     <-> run_script w img = Exited0) /\
    (forall script, In (SubprocessRun script) acts ->
                    script = img \/ script = GENERATE_MAPS_SCRIPT) /\
    (forall url, In (OpenNewTab url) acts <->
       run_script w img = Exited0 /\
       run_script w GENERATE_MAPS_SCRIPT = Exited0 /\
       html_exists w = true /\
       url = ("file://" ++ html_realpath w)%string) in
  facts GENERATE_IMAGE_SCRIPT (actions_of (run_groundwater_report w) s) /\
  facts GENERATE_NITRATE_IMAGE_SCRIPT (actions_of (run_nitrate_report w) s).
Proof.
  intros facts. unfold facts.
  rewrite groundwater_actions, nitrate_actions.
  split; apply report_actions_order; discriminate.
Qed.

Lemma report_boxes (w : World) (img : string) :
  (report_raised w img = None ->
   exists before box,
     report_actions w img = before ++ [box] /\
     is_message_box box = true /\
     filter is_message_box before = []) /\
  (forall e, report_raised w img = Some e ->
     filter is_message_box (report_actions w img) = [] /\
     exists msg, e = OtherError msg /\
       (run_script w img = Failed msg \/
        run_script w img = Exited0 /\
        run_script w GENERATE_MAPS_SCRIPT = Failed msg)) /\
  (forall title message, In (ShowInfo title message) (report_actions w img) <->
     run_script w img = Exited0 /\
     run_script w GENERATE_MAPS_SCRIPT = Exited0 /\
     html_exists w = true /\
     title = "Report Ready"%string /\ message = success_message).
Proof.
  unfold report_raised, report_actions.
  destruct (run_script w img) eqn:E1;
    [destruct (run_script w GENERATE_MAPS_SCRIPT) eqn:E2;
       [destruct (html_exists w) eqn:E3 | | |] | | |];
    cbn [app].
  all: split;
    [intros H; first [discriminate H |
     match goal with
     | |- exists before box, ?l = _ /\ _ =>
         exists (removelast l), (last l UpdateIdletasks);
         cbn; repeat split; reflexivity
     end] |].
  all: split;
    [intros e H; first [discriminate H |
       injection H as <-; split; [reflexivity |];
       eexists; split; [reflexivity | tauto]] |].
  all: intros title message; split;
    [intros H; in_cases H; injection H as <- <-; repeat split; reflexivity
    | intros (H1 & H2 & H3 & -> & ->); first [congruence | cbn [In]; tauto]].
Qed.

(** X16.  A report that returns has shown exactly one message box, as its
    last action; a report that lets an exception through has shown none, and
    that exception is neither of the two the launcher handles: it comes from
    a script that could not be run for another reason.  The box reports
    success exactly when both scripts have exited with status 0 and the map
    file exists. *)
Theorem one_message_box_unless_an_exception_passes (w : World) (s : Label) :
  let facts (img : string) (m : UI unit) :=
    (raised m s = None ->
     exists before box,
       actions_of m s = before ++ [box] /\
       is_message_box box = true /\
       filter is_message_box before = []) /\
    (forall e, raised m s = Some e ->
       filter is_message_box (actions_of m s) = [] /\
       exists msg, e = OtherError msg /\
         (run_script w img = Failed msg \/
          run_script w img = Exited0 /\
          run_script w GENERATE_MAPS_SCRIPT = Failed msg)) /\
    (forall title message, In (ShowInfo title message) (actions_of m s) <->
       run_script w img = Exited0 /\
       run_script w GENERATE_MAPS_SCRIPT = Exited0 /\
       html_exists w = true /\
       title = "Report Ready"%string /\ message = success_message) in
  facts GENERATE_IMAGE_SCRIPT (run_groundwater_report w) /\
  facts GENERATE_NITRATE_IMAGE_SCRIPT (run_nitrate_report w).
Proof.
  intros facts. unfold facts.
  rewrite groundwater_actions, nitrate_actions, groundwater_raised,
    nitrate_raised.
  split; apply report_boxes.
Qed.

(** X17.  When both image scripts exit with status 0, the nitrate report
    does what the groundwater report does with the name of the image script
    replaced: it shows the same message boxes, so that its success message
    also announces a groundwater report. *)
Theorem nitrate_report_shows_the_groundwater_messages (w : World) (s : Label) :
  run_script w GENERATE_IMAGE_SCRIPT = Exited0 ->
  run_script w GENERATE_NITRATE_IMAGE_SCRIPT = Exited0 ->
  actions_of (run_nitrate_report w) s
  = map rename_image_script (actions_of (run_groundwater_report w) s) /\
  raised (run_nitrate_report w) s = raised (run_groundwater_report w) s /\
  status_after (run_nitrate_report w) s
  = status_after (run_groundwater_report w) s /\
  (run_script w GENERATE_MAPS_SCRIPT = Exited0 -> html_exists w = true ->
   exists before rest,
     actions_of (run_nitrate_report w) s
     = before ++ [ShowInfo "Report Ready"
                    ("Groundwater report generated successfully!" ++ rest)]).
Proof.
  intros E1 E2.
  split.
  { rewrite groundwater_actions, nitrate_actions. unfold report_actions.
    rewrite E1, E2.
    destruct (run_script w GENERATE_MAPS_SCRIPT);
      [destruct (html_exists w) | | |]; reflexivity. }
  split.
  { rewrite groundwater_raised, nitrate_raised. unfold report_raised.
    now rewrite E1, E2. }
  split.
  { unfold status_after. run_report w; reflexivity. }
  intros E3 E4. rewrite nitrate_actions. unfold report_actions.
  rewrite E2, E3, E4.
  eexists [_; _; _; _; _; _], _. reflexivity.
Qed.

Lemma nitrate_report_shows_the_groundwater_messages_witness :
  actions_of (run_nitrate_report all_is_well) idle
  = map rename_image_script (actions_of (run_groundwater_report all_is_well) idle).
Proof.
  exact (proj1 (nitrate_report_shows_the_groundwater_messages
                  all_is_well idle eq_refl eq_refl)).
Defined.

(** X18.  The window is centred: the margins to the left and right (above
    and below) differ by at most one pixel, and the window lies on the
    screen exactly when the screen is at least as large as the window. *)
Theorem window_is_centred (screen_width screen_height : Z) :
  let (x_pos, y_pos) := window_position screen_width screen_height in
  (0 <= screen_width - (x_pos + WINDOW_WIDTH) - x_pos <= 1)%Z /\
  (0 <= screen_height - (y_pos + WINDOW_HEIGHT) - y_pos <= 1)%Z /\
  ((0 <= x_pos)%Z <-> (WINDOW_WIDTH <= screen_width)%Z) /\
  ((0 <= y_pos)%Z <-> (WINDOW_HEIGHT <= screen_height)%Z) /\
  ((WINDOW_WIDTH <= screen_width)%Z ->
   (x_pos + WINDOW_WIDTH <= screen_width)%Z) /\
  ((WINDOW_HEIGHT <= screen_height)%Z ->
   (y_pos + WINDOW_HEIGHT <= screen_height)%Z).
Proof.
  unfold window_position, WINDOW_WIDTH, WINDOW_HEIGHT.
  change (450 / 2)%Z with 225%Z. change (300 / 2)%Z with 150%Z.
  assert (Hw := Z.div_mod screen_width 2).
  assert (Hw' := Z.mod_pos_bound screen_width 2).
  assert (Hh := Z.div_mod screen_height 2).
  assert (Hh' := Z.mod_pos_bound screen_height 2).
  lia.
Qed.

End LauncherFacts.

(** ** Points and bounds from the KMZ file *)

Lemma string_length_append (p t : string) :
  String.length (p ++ t) = (String.length p + String.length t)%nat.
Proof. induction p as [| c p IH]; cbn; [reflexivity | now rewrite IH]. Qed.

Lemma substring_all (t : string) : substring 0 (String.length t) t = t.
Proof. induction t as [| c t IH]; cbn; [reflexivity | now rewrite IH]. Qed.

Lemma substring_append (p t : string) :
  substring (String.length p) (String.length t) (p ++ t) = t.
Proof. induction p as [| c p IH]; cbn; [apply substring_all | exact IH]. Qed.

Lemma append_substring (s : string) (k : nat) :
  (k <= String.length s)%nat ->
  s = (substring 0 k s ++ substring k (String.length s - k) s)%string.
Proof.
  revert k. induction s as [| c s IH]; intros k Hk; cbn in *.
  - destruct k; reflexivity.
  - destruct k as [| k]; cbn.
    + now rewrite substring_all.
    + f_equal. apply IH. lia.
Qed.

Lemma ends_with_spec (suffix s : string) :
  Maps.ends_with suffix s = true <-> has_suffix suffix s.
Proof.
  unfold Maps.ends_with, has_suffix. rewrite andb_true_iff, String.eqb_eq.
  split.
  - intros (Hle & E). apply Nat.leb_le in Hle.
    exists (substring 0 (String.length s - String.length suffix) s).
    rewrite <- E at 2.
    rewrite (append_substring s (String.length s - String.length suffix))
      at 1 by lia.
    do 3 f_equal. lia.
  - intros (p & ->). rewrite string_length_append. split.
    + apply Nat.leb_le. lia.
    + replace (String.length p + String.length suffix - String.length suffix)%nat
        with (String.length p) by lia.
      apply substring_append.
Qed.

Lemma find_first_kml (env : Maps.Env) :
  match find (Maps.ends_with ".kml") (Maps.listdir env) with
  | Some f => first_kml env f
  | None => Forall (fun g => ~ has_suffix ".kml" g) (Maps.listdir env)
  end.
Proof.
  unfold first_kml. induction (Maps.listdir env) as [| g l IH]; cbn.
  - constructor.
  - destruct (Maps.ends_with ".kml" g) eqn:E.
    + exists [], l. split; [reflexivity |].
      split; [now apply ends_with_spec | constructor].
    + assert (Hg : ~ has_suffix ".kml" g).
      { intros H. apply ends_with_spec in H. congruence. }
      destruct (find (Maps.ends_with ".kml") l) as [f |].
      * destruct IH as (before & after & -> & Hf & Hb).
        exists (g :: before), after. split; [reflexivity |].
        split; [exact Hf | now constructor].
      * now constructor.
Qed.

Lemma first_kml_unique (env : Maps.Env) (f g : string) :
  first_kml env f -> first_kml env g -> f = g.
Proof.
  intros (b1 & a1 & E1 & H1 & F1) (b2 & a2 & E2 & H2 & F2).
  rewrite E1 in E2. clear E1. revert b2 E2 F2.
  induction b1 as [| x b1 IH]; intros [| y b2] E2 F2; cbn in E2.
  - now injection E2.
  - injection E2 as -> _. inversion F2; subst. contradiction.
  - injection E2 as -> _. inversion F1; subst. contradiction.
  - injection E2 as -> E2.
    apply (IH (Forall_inv_tail F1) b2 E2 (Forall_inv_tail F2)).
Qed.

Lemma first_kml_find (env : Maps.Env) (f : string) :
  first_kml env f -> find (Maps.ends_with ".kml") (Maps.listdir env) = Some f.
Proof.
  intros Hf. assert (H := find_first_kml env).
  destruct (find (Maps.ends_with ".kml") (Maps.listdir env)) as [g |].
  - f_equal. now apply (first_kml_unique env).
  - destruct Hf as (b & a & E & Hs & _). rewrite E in H.
    apply Forall_app in H. destruct H as (_ & H). inversion H; subst.
    contradiction.
Qed.

Lemma parse_point_cases (env : Maps.Env) (text : string) :
  match Maps.parse_point env text with
  | inr p => read_from env text p
  | inl e => ~ readable env text /\ exists msg, e = Maps.ValueError msg
  end.
Proof.
  unfold Maps.parse_point, read_from, readable, coordinate_fields.
  destruct (Maps.floats (Maps.parse_float env) (Maps.split_commas (strip text)))
    as [[| lon [| lat rest]] |].
  - split; [intros (? & ? & ? & ?); discriminate | now eexists].
  - split; [intros (? & ? & ? & ?); discriminate | now eexists].
  - now exists rest.
  - split; [intros (? & ? & ? & ?); discriminate | now eexists].
Qed.

Lemma read_from_readable (env : Maps.Env) (text : string) (p : Q * Q) :
  read_from env text p -> readable env text.
Proof. intros (rest & E). now exists (fst p), (snd p), rest. Qed.

Lemma parse_points_cases (env : Maps.Env) (texts : list string) :
  match Maps.parse_points env texts with
  | inr pts => Forall2 (read_from env) texts pts
  | inl e => ~ Forall (readable env) texts /\ exists msg, e = Maps.ValueError msg
  end.
Proof.
  induction texts as [| t texts IH]; cbn; [constructor |].
  assert (Hp := parse_point_cases env t).
  destruct (Maps.parse_point env t) as [e | p].
  - destruct Hp as (Hn & Hm). split; [| exact Hm].
    intros H. inversion H; subst. contradiction.
  - destruct (Maps.parse_points env texts) as [e | pts].
    + destruct IH as (Hn & Hm). split; [| exact Hm].
      intros H. inversion H; subst. contradiction.
    + now constructor.
Qed.

Lemma Forall2_readable (env : Maps.Env) (texts : list string)
  (pts : list (Q * Q)) :
  Forall2 (read_from env) texts pts -> Forall (readable env) texts.
Proof.
  induction 1; constructor; [eapply read_from_readable; eassumption | assumption].
Qed.

(** The outcome of the extraction, by the file found and its placemarks. *)
Lemma extract_cases (env : Maps.Env) (extract_dir : string) :
  match Maps.extract_kmz_points_and_bounds env extract_dir with
  | inl (Maps.FileNotFoundError msg) =>
      msg = "No .kml file found in the KMZ."%string /\
      Forall (fun g => ~ has_suffix ".kml" g) (Maps.listdir env)
  | inl (Maps.ValueError msg) =>
      exists f, first_kml env f /\
        let texts := Maps.placemarks_of env (Maps.path_join env extract_dir f) in
        (texts = [] /\ msg = "No Point placemarks found in the KML."%string \/
         texts <> [] /\ ~ Forall (readable env) texts)
  | inr ex =>
      exists f, first_kml env f /\
        let texts := Maps.placemarks_of env (Maps.path_join env extract_dir f) in
        texts <> [] /\ Forall2 (read_from env) texts (Maps.points ex) /\
        Maps.image_bounds ex
        = ((list_min (map snd (Maps.points ex)), list_min (map fst (Maps.points ex))),
           (list_max (map snd (Maps.points ex)), list_max (map fst (Maps.points ex)))) /\
        Maps.bbox ex
        = (list_min (map fst (Maps.points ex)), list_min (map snd (Maps.points ex)),
           list_max (map fst (Maps.points ex)), list_max (map snd (Maps.points ex)))
  end.
Proof.
  unfold Maps.extract_kmz_points_and_bounds.
  assert (Hf := find_first_kml env).
  destruct (find (Maps.ends_with ".kml") (Maps.listdir env)) as [f |];
    [| now split].
  destruct (Maps.placemarks_of env (Maps.path_join env extract_dir f))
    as [| t texts] eqn:Et.
  - exists f. split; [exact Hf |]. rewrite Et. left. now split.
  - assert (Hp := parse_points_cases env (t :: texts)).
    destruct (Maps.parse_points env (t :: texts)) as [e | pts].
    + destruct Hp as (Hn & msg & ->). exists f. split; [exact Hf |].
      rewrite Et. right. split; [discriminate | exact Hn].
    + exists f. split; [exact Hf |]. rewrite Et. cbn [Maps.points
        Maps.image_bounds Maps.bbox].
      split; [discriminate |]. split; [exact Hp |]. now split.
Qed.

(** X19.  The extraction fails with [FileNotFoundError] exactly when no
    listed file name ends with [.kml] (a name such as [doc.kml.bak] does not
    count), and with the [ValueError] of line 42 when the first such file
    has no placemark with a point, whatever the files listed after it
    hold. *)
Theorem extraction_needs_a_kml_file_with_placemarks
  (env : Maps.Env) (extract_dir : string) :
  let result := Maps.extract_kmz_points_and_bounds env extract_dir in
  (Forall (fun g => ~ has_suffix ".kml" g) (Maps.listdir env) <->
   result = inl (Maps.FileNotFoundError "No .kml file found in the KMZ.")) /\
  (forall msg, result = inl (Maps.FileNotFoundError msg) ->
               msg = "No .kml file found in the KMZ."%string) /\
  (forall f, first_kml env f ->
     Maps.placemarks_of env (Maps.path_join env extract_dir f) = [] ->
     result = inl (Maps.ValueError "No Point placemarks found in the KML.")).
Proof.
  intros result. subst result.
  assert (Hc := extract_cases env extract_dir).
  assert (Hempty : forall f, first_kml env f ->
     Maps.placemarks_of env (Maps.path_join env extract_dir f) = [] ->
     Maps.extract_kmz_points_and_bounds env extract_dir
     = inl (Maps.ValueError "No Point placemarks found in the KML.")).
  { intros f Hf Et. unfold Maps.extract_kmz_points_and_bounds.
    now rewrite (first_kml_find env f Hf), Et. }
  split.
  { split.
    - intros Hall. unfold Maps.extract_kmz_points_and_bounds.
      assert (Hf := find_first_kml env).
      destruct (find (Maps.ends_with ".kml") (Maps.listdir env)) as [f |];
        [| reflexivity].
      destruct Hf as (b & a & E & Hs & _). rewrite E in Hall.
      apply Forall_app in Hall. destruct Hall as (_ & Hall).
      inversion Hall; subst. contradiction.
    - intros E. rewrite E in Hc. exact (proj2 Hc). }
  split.
  { intros msg E. rewrite E in Hc. exact (proj1 Hc). }
  exact Hempty.
Qed.

Example no_kml_archive_fails :
  Maps.extract_kmz_points_and_bounds no_kml "extracted"
  = inl (Maps.FileNotFoundError "No .kml file found in the KMZ.").
Proof. reflexivity. Qed.

(** X20.  The extraction returns exactly when the first [.kml] file has at
    least one placemark with a point and every coordinate text has at least
    two comma-separated fields that are all numbers (a third field, the
    altitude, is converted and dropped); one unreadable text makes the whole
    extraction fail. *)
Theorem extraction_returns_exactly_on_readable_placemarks
  (env : Maps.Env) (extract_dir : string) :
  (exists ex, Maps.extract_kmz_points_and_bounds env extract_dir = inr ex) <->
  (exists f, first_kml env f /\
     Maps.placemarks_of env (Maps.path_join env extract_dir f) <> [] /\
     Forall (readable env)
            (Maps.placemarks_of env (Maps.path_join env extract_dir f))).
Proof.
  assert (Hc := extract_cases env extract_dir).
  split.
  - intros (ex & E). rewrite E in Hc.
    destruct Hc as (f & Hf & Hne & Hr & _). exists f.
    split; [exact Hf |]. split; [exact Hne |].
    now apply (Forall2_readable env _ (Maps.points ex)).
  - intros (f & Hf & Hne & Hall).
    destruct (Maps.extract_kmz_points_and_bounds env extract_dir)
      as [[msg | msg] | ex]; [| | now exists ex].
    + destruct Hc as (_ & Hno). destruct Hf as (b & a & E & Hs & _).
      rewrite E in Hno. apply Forall_app in Hno. destruct Hno as (_ & Hno).
      inversion Hno; subst. contradiction.
    + destruct Hc as (g & Hg & Hcase).
      rewrite (first_kml_unique env g f Hg Hf) in Hcase.
      destruct Hcase as [(Hnil & _) | (_ & Hbad)]; contradiction.
Qed.

(** X21.  What a successful extraction returns: one point per placemark, in
    document order, with the first field as longitude and the second as
    latitude; overlay bounds in the order [[south, west], [north, east]] and
    a box in the order [(west, south, east, north)] over the same four
    numbers, which are attained and enclose every point.  The list of points
    is not empty, so the map centre of line 66 exists, and it lies within
    the bounds. *)
Theorem extracted_bounds_enclose_the_points
  (env : Maps.Env) (extract_dir : string) (ex : Maps.Extract) :
  Maps.extract_kmz_points_and_bounds env extract_dir = inr ex ->
  (exists f, first_kml env f /\
     Forall2 (read_from env)
             (Maps.placemarks_of env (Maps.path_join env extract_dir f))
             (Maps.points ex)) /\
  exists west south east north,
    Maps.image_bounds ex = ((fin south, fin west), (fin north, fin east)) /\
    Maps.bbox ex = (fin west, fin south, fin east, fin north) /\
    minimum_of west (map fst (Maps.points ex)) /\
    minimum_of south (map snd (Maps.points ex)) /\
    maximum_of east (map fst (Maps.points ex)) /\
    maximum_of north (map snd (Maps.points ex)) /\
    (forall lon lat, In (lon, lat) (Maps.points ex) ->
       west <= lon <= east /\ south <= lat <= north) /\
    exists lat0 lon0,
      Maps.map_center (Maps.points ex) = Some (lat0, lon0) /\
      south <= lat0 <= north /\ west <= lon0 <= east.
Proof.
  intros E. assert (Hc := extract_cases env extract_dir). rewrite E in Hc.
  destruct Hc as (f & Hf & Hne & Hr & Hb & Hbox).
  split; [now exists f |].
  assert (Hpts : Maps.points ex <> []).
  { intros Hnil. rewrite Hnil in Hr. inversion Hr; subst. congruence. }
  assert (Hx : map fst (Maps.points ex) <> [])
    by (destruct (Maps.points ex); [congruence | discriminate]).
  assert (Hy : map snd (Maps.points ex) <> [])
    by (destruct (Maps.points ex); [congruence | discriminate]).
  destruct (list_min_minimum _ Hx) as (west & Ew & Mw).
  destruct (list_min_minimum _ Hy) as (south & Es & Ms).
  destruct (list_max_maximum _ Hx) as (east & Ee & Me).
  destruct (list_max_maximum _ Hy) as (north & En & Mn).
  exists west, south, east, north.
  rewrite Hb, Hbox, Ew, Es, Ee, En.
  do 6 (split; [first [reflexivity | assumption] |]).
  assert (Hin : forall lon lat, In (lon, lat) (Maps.points ex) ->
                  west <= lon <= east /\ south <= lat <= north).
  { intros lon lat Hin.
    assert (Hl : In lon (map fst (Maps.points ex)))
      by (apply in_map_iff; now exists (lon, lat)).
    assert (Ht : In lat (map snd (Maps.points ex)))
      by (apply in_map_iff; now exists (lon, lat)).
    destruct Mw as (_ & Mw), Ms as (_ & Ms), Me as (_ & Me), Mn as (_ & Mn).
    rewrite Forall_forall in Mw, Ms, Me, Mn.
    specialize (Mw lon Hl). specialize (Me lon Hl).
    specialize (Ms lat Ht). specialize (Mn lat Ht). cbv beta in *. tauto. }
  split; [exact Hin |].
  destruct (Maps.points ex) as [| (lon0, lat0) rest] eqn:Ep; [congruence |].
  exists lat0, lon0. split; [reflexivity |].
  destruct (Hin lon0 lat0 (or_introl eq_refl)). tauto.
Qed.

Lemma extracted_bounds_enclose_the_points_witness :
  exists ex west south east north,
    Maps.extract_kmz_points_and_bounds two_placemarks "extracted" = inr ex /\
    Maps.image_bounds ex = ((fin south, fin west), (fin north, fin east)) /\
    (forall lon lat, In (lon, lat) (Maps.points ex) ->
       west <= lon <= east /\ south <= lat <= north).
Proof.
  eexists.
  destruct (extracted_bounds_enclose_the_points two_placemarks "extracted" _
              eq_refl)
    as (_ & west & south & east & north & Hb & _ & _ & _ & _ & _ & Hin & _).
  exists west, south, east, north.
  split; [reflexivity |]. split; [exact Hb | exact Hin].
Defined.

(** ** The gradient field *)

Import Gradient.
Open Scope R_scope.

Ltac rlra := Lra.lra.
Ltac rnra := Lra.nra.

Lemma epsilon_pos : 0 < epsilon.
Proof. unfold epsilon. apply Rinv_0_lt_compat, pow_lt. rlra. Qed.

Lemma denominator_pos (a b : R) : 0 < sqrt (a ^ 2 + b ^ 2) + epsilon.
Proof.
  assert (H := sqrt_pos (a ^ 2 + b ^ 2)). assert (He := epsilon_pos). rlra.
Qed.

Lemma normalised_length (a b : R) :
  let m := sqrt (a ^ 2 + b ^ 2) in
  let x := - a / (m + epsilon) in
  let y := - b / (m + epsilon) in
  0 <= sqrt (x ^ 2 + y ^ 2) < 1.
Proof.
  intros m x y.
  assert (Hm : 0 <= m) by apply sqrt_pos.
  assert (He := epsilon_pos).
  assert (Hsq : m ^ 2 = a ^ 2 + b ^ 2).
  { unfold m. apply pow2_sqrt. rnra. }
  assert (Hd : 0 < (m + epsilon) ^ 2) by (apply pow_lt; rlra).
  assert (E : x ^ 2 + y ^ 2 = m ^ 2 / (m + epsilon) ^ 2).
  { unfold x, y. rewrite Hsq. field. rlra. }
  split; [apply sqrt_pos |].
  rewrite <- sqrt_1. apply sqrt_lt_1.
  - rewrite E. apply Rmult_le_pos; [rnra |].
    apply Rlt_le, Rinv_0_lt_compat, Hd.
  - rlra.
  - rewrite E.
    replace 1 with ((m + epsilon) ^ 2 / (m + epsilon) ^ 2) by (field; rlra).
    unfold Rdiv. apply Rmult_lt_compat_r; [apply Rinv_0_lt_compat, Hd | rnra].
Qed.

Lemma olift2_defined (op : R -> R -> R) (x y : option R) :
  defined (olift2 op x y) <-> defined x /\ defined y.
Proof.
  unfold defined.
  destruct x, y; cbn; split; intros H;
    try (split; congruence); try (destruct H; congruence).
Qed.

Lemma option_map_defined (f : R -> R) (x : option R) :
  defined (option_map f x) <-> defined x.
Proof. unfold defined. destruct x; cbn; split; congruence. Qed.

Lemma diff1_defined (n : nat) (f : nat -> option R) (i : nat) :
  defined (diff1 n f i) <-> Forall (fun k => defined (f k)) (stencil n i).
Proof.
  unfold diff1, stencil.
  destruct (i =? 0)%nat; [| destruct (i =? n - 1)%nat];
    rewrite ?option_map_defined, olift2_defined; split.
  all: try (intros (H1 & H2); repeat constructor; assumption).
  all: intros H; inversion H as [| ? ? H1 H']; subst;
    inversion H' as [| ? ? H2 ?]; subst; auto.
Qed.

Lemma u_defined (z : ndarray) (i j : nat) :
  defined (u z i j) <-> defined (dz_dx z i j) /\ defined (dz_dy z i j).
Proof.
  unfold u, magnitude.
  rewrite !olift2_defined, !option_map_defined, olift2_defined,
    !option_map_defined.
  unfold defined at 4. split; [tauto |]. intros (H1 & H2).
  repeat split; auto. discriminate.
Qed.





Lemma arrows_of_differences (z : ndarray) (i j : nat) (a b : R) :
  dz_dx z i j = Some a -> dz_dy z i j = Some b ->
  0 < sqrt (a ^ 2 + b ^ 2) + epsilon /\
  u z i j = Some (- a / (sqrt (a ^ 2 + b ^ 2) + epsilon)) /\
  v z i j = Some (- b / (sqrt (a ^ 2 + b ^ 2) + epsilon)) /\
  exists len, arrow_length z i j = Some len /\ 0 <= len < 1.
Proof.
  intros Ea Eb.
  split; [apply denominator_pos |].
  assert (Eu : u z i j = Some (- a / (sqrt (a ^ 2 + b ^ 2) + epsilon))).
  { unfold u, magnitude. now rewrite Ea, Eb. }
  assert (Ev : v z i j = Some (- b / (sqrt (a ^ 2 + b ^ 2) + epsilon))).
  { unfold v, magnitude. now rewrite Ea, Eb. }
  split; [exact Eu |]. split; [exact Ev |].
  unfold arrow_length. rewrite Eu, Ev. cbn.
  eexists. split; [reflexivity |]. apply normalised_length.
Qed.

Lemma arrows_need_the_stencil (z : ndarray) (i j : nat) :
  defined (u z i j) <->
  Forall (fun k => defined (item z k j)) (stencil (nrows z) i) /\
  Forall (fun k => defined (item z i k)) (stencil (ncols z) j).
Proof.
  rewrite u_defined. unfold dz_dx, dz_dy. now rewrite !diff1_defined.
Qed.







(** Without the convexity of the finite region a NaN cell can have an
    arrow: the central difference does not read the cell itself. *)
Example isolated_nan_keeps_its_arrow :
  item pierced_field 1 1 = None /\ defined (u pierced_field 1 1).
Proof.
  split; [reflexivity |].
  apply arrows_need_the_stencil. cbn.
  split; repeat constructor; discriminate.
Qed.

(** ** More on the gradient field *)

Lemma diff1_linear (n : nat) (f : nat -> option R) (c a : R) (i : nat) :
  (2 <= n)%nat -> (i < n)%nat ->
  (forall k, (k < n)%nat -> f k = Some (c + a * INR k)) ->
  diff1 n f i = Some a.
Proof.
  intros Hn Hi Hf. unfold diff1.
  destruct (Nat.eqb_spec i 0) as [-> | H0].
  - rewrite !Hf by lia. cbn [olift2]. f_equal. cbn [INR]. rlra.
  - destruct (Nat.eqb_spec i (n - 1)) as [-> | H1].
    + rewrite !Hf by lia. cbn [olift2]. f_equal.
      replace (n - 1)%nat with (S (n - 2)) by lia. rewrite S_INR. rlra.
    + rewrite !Hf by lia. cbn [olift2 option_map]. f_equal.
      replace (i + 1)%nat with (S (S (i - 1))) by lia. rewrite !S_INR. rlra.
Qed.

(** X22.  On a grid that is a plane, [z(i, j) = c + a i + b j], the finite
    differences are exact at every cell, the edges included: [dz_dx = a] and
    [dz_dy = b], so all arrows are the same. *)
Theorem gradient_of_a_plane_is_exact (z : ndarray) (c a b : R) :
  (2 <= nrows z)%nat -> (2 <= ncols z)%nat ->
  (forall i j, (i < nrows z)%nat -> (j < ncols z)%nat ->
               item z i j = Some (c + a * INR i + b * INR j)) ->
  forall i j, (i < nrows z)%nat -> (j < ncols z)%nat ->
    dz_dx z i j = Some a /\ dz_dy z i j = Some b /\
    u z i j = Some (- a / (sqrt (a ^ 2 + b ^ 2) + epsilon)) /\
    v z i j = Some (- b / (sqrt (a ^ 2 + b ^ 2) + epsilon)).
Proof.
  intros Hr Hc Hz i j Hi Hj.
  assert (Ex : dz_dx z i j = Some a).
  { unfold dz_dx.
    apply (diff1_linear (nrows z) _ (c + b * INR j) a i Hr Hi).
    intros k Hk. rewrite (Hz k j Hk Hj). f_equal; rlra. }
  assert (Ey : dz_dy z i j = Some b).
  { unfold dz_dy.
    apply (diff1_linear (ncols z) _ (c + a * INR i) b j Hc Hj).
    intros k Hk. rewrite (Hz i k Hi Hk). reflexivity. }
  split; [exact Ex |]. split; [exact Ey |].
  destruct (arrows_of_differences z i j a b Ex Ey) as (_ & Eu & Ev & _).
  now split.
Qed.

Lemma gradient_of_a_plane_is_exact_witness :
  dz_dx (plane 3 4 1 2 3) 2 0 = Some 2 /\ dz_dy (plane 3 4 1 2 3) 2 0 = Some 3.
Proof.
  assert (H3 : (2 <= 3)%nat) by lia.
  assert (H4 : (2 <= 4)%nat) by lia.
  assert (Hi : (2 < 3)%nat) by lia.
  assert (Hj : (0 < 4)%nat) by lia.
  assert (Hz : forall i j, (i < nrows (plane 3 4 1 2 3))%nat ->
                           (j < ncols (plane 3 4 1 2 3))%nat ->
               item (plane 3 4 1 2 3) i j = Some (1 + 2 * INR i + 3 * INR j)).
  { intros i j Hi' Hj'. cbn [plane nrows ncols item] in *.
    apply Nat.ltb_lt in Hi', Hj'. now rewrite Hi', Hj'. }
  destruct (gradient_of_a_plane_is_exact (plane 3 4 1 2 3) 1 2 3 H3 H4 Hz
              2%nat 0%nat Hi Hj) as (Ex & Ey & _).
  split; [exact Ex | exact Ey].
Defined.

Lemma sum_of_squares_zero (a b : R) : a ^ 2 + b ^ 2 = 0 -> a = 0 /\ b = 0.
Proof.
  intros H. assert (Ha : 0 <= a ^ 2) by apply pow2_ge_0.
  assert (Hb : 0 <= b ^ 2) by apply pow2_ge_0.
  assert (Ea : a ^ 2 = 0) by rlra. assert (Eb : b ^ 2 = 0) by rlra.
  cbn [pow] in Ea, Eb.
  apply Rmult_integral in Ea, Eb.
  split; [destruct Ea | destruct Eb]; rlra.
Qed.

(** X23.  Where an arrow is drawn it points downhill: its product with the
    gradient is not positive, it is parallel to the gradient, and it is the
    zero arrow (never NaN) exactly where both finite differences are zero. *)
Theorem arrows_point_downhill (z : ndarray) (i j : nat) (a b : R) :
  dz_dx z i j = Some a -> dz_dy z i j = Some b ->
  exists p q,
    u z i j = Some p /\ v z i j = Some q /\
    p * a + q * b <= 0 /\
    p * b = q * a /\
    (p * a + q * b = 0 <-> a = 0 /\ b = 0) /\
    (p = 0 /\ q = 0 <-> a = 0 /\ b = 0).
Proof.
  intros Ea Eb.
  destruct (arrows_of_differences z i j a b Ea Eb) as (Hd & Eu & Ev & _).
  set (d := sqrt (a ^ 2 + b ^ 2) + epsilon) in *.
  exists (- a / d), (- b / d).
  split; [exact Eu |]. split; [exact Ev |].
  assert (Hi : 0 < / d) by now apply Rinv_0_lt_compat.
  assert (Hdot : - a / d * a + - b / d * b = - ((a ^ 2 + b ^ 2) * / d))
    by (field; rlra).
  assert (Hsq : 0 <= a ^ 2 + b ^ 2).
  { assert (Ha : 0 <= a ^ 2) by apply pow2_ge_0.
    assert (Hb : 0 <= b ^ 2) by apply pow2_ge_0. rlra. }
  split.
  { rewrite Hdot. assert (0 <= (a ^ 2 + b ^ 2) * / d)
      by (apply Rmult_le_pos; rlra). rlra. }
  split; [field; rlra |].
  split.
  - rewrite Hdot. split.
    + intros H. apply sum_of_squares_zero.
      assert (H' : (a ^ 2 + b ^ 2) * / d = 0) by rlra.
      apply Rmult_integral in H'. destruct H' as [H' | H']; [exact H' | rlra].
    + intros (-> & ->). rewrite pow_i by lia. rlra.
  - split.
    + intros (Hp & Hq). unfold Rdiv in Hp, Hq.
      apply Rmult_integral in Hp, Hq.
      destruct Hp as [Hp | Hp]; [| rlra]. destruct Hq as [Hq | Hq]; [| rlra].
      split; rlra.
    + intros (-> & ->). unfold Rdiv. split; rewrite Ropp_0; apply Rmult_0_l.
Qed.

Lemma arrows_point_downhill_witness :
  exists p q,
    u triangle_field 10 10 = Some p /\ v triangle_field 10 10 = Some q.
Proof.
  destruct (arrows_point_downhill triangle_field 10 10 _ _ eq_refl eq_refl)
    as (p & q & Eu & Ev & _).
  now exists p, q.
Defined.

Lemma normalised_length_value (a b : R) :
  let m := sqrt (a ^ 2 + b ^ 2) in
  sqrt ((- a / (m + epsilon)) ^ 2 + (- b / (m + epsilon)) ^ 2)
  = m / (m + epsilon).
Proof.
  intros m.
  assert (Hm : 0 <= m) by apply sqrt_pos.
  assert (He := epsilon_pos).
  assert (Hsq : m ^ 2 = a ^ 2 + b ^ 2).
  { unfold m. apply pow2_sqrt. rnra. }
  assert (E : (- a / (m + epsilon)) ^ 2 + (- b / (m + epsilon)) ^ 2
              = (m / (m + epsilon)) ^ 2).
  { transitivity ((a ^ 2 + b ^ 2) / (m + epsilon) ^ 2); [field; rlra |].
    rewrite <- Hsq. field. rlra. }
  rewrite E. apply sqrt_pow2.
  apply Rmult_le_pos; [exact Hm |]. apply Rlt_le, Rinv_0_lt_compat. rlra.
Qed.

(** X24.  The arrows show the direction of the slope, not its size: the
    arrow at a cell with slope [m] has length [m / (m + 1e-10)], which is
    above [1 - 1e-10 / m] for every slope that is not zero, and zero for
    slope zero. *)
Theorem arrow_length_is_the_normalised_slope
  (z : ndarray) (i j : nat) (a b : R) :
  dz_dx z i j = Some a -> dz_dy z i j = Some b ->
  let m := sqrt (a ^ 2 + b ^ 2) in
  magnitude z i j = Some m /\
  arrow_length z i j = Some (m / (m + epsilon)) /\
  (0 < m -> 1 - epsilon / m < m / (m + epsilon)) /\
  (m = 0 -> m / (m + epsilon) = 0).
Proof.
  intros Ea Eb m.
  destruct (arrows_of_differences z i j a b Ea Eb) as (Hd & Eu & Ev & _).
  assert (He := epsilon_pos).
  split; [unfold magnitude; now rewrite Ea, Eb |].
  split.
  { unfold arrow_length. rewrite Eu, Ev. cbn [option_map olift2]. f_equal.
    apply normalised_length_value. }
  split.
  - intros Hm.
    assert (E : m / (m + epsilon) = 1 - epsilon / (m + epsilon))
      by (field; rlra).
    rewrite E.
    assert (epsilon / (m + epsilon) < epsilon / m); [| rlra].
    unfold Rdiv. apply Rmult_lt_compat_l; [exact He |].
    apply Rinv_lt_contravar; [apply Rmult_lt_0_compat; rlra | rlra].
  - intros ->. unfold Rdiv. apply Rmult_0_l.
Qed.

Lemma arrow_length_is_the_normalised_slope_witness :
  exists m, magnitude triangle_field 10 10 = Some m /\
            arrow_length triangle_field 10 10 = Some (m / (m + epsilon)).
Proof.
  destruct (arrow_length_is_the_normalised_slope triangle_field 10 10 _ _
              eq_refl eq_refl) as (Em & El & _).
  eexists. split; [exact Em | exact El].
Defined.
